(** * Mirror screen tool: a shallow embedding of [main.py]

    The program is a PySide6 application: a primary graphics view
    ([MyGraphicsView]) over a base image and an editable overlay bitmap, two
    mirror windows and a main window ([MainWindow]) that wires tool buttons,
    a brush slider, the open-image action and the mirror-refresh timer.

    The embedding follows the source method by method.  Python objects are
    records, the main window owns the view, the scene items and the mirror
    windows, and every method is a function from the state before the call
    to an [outcome]: the state after a normal return, or the state at the
    point where a Python exception left the method.  What the GUI toolkit
    computes on its own (rasterising an ellipse, the view's matrix and
    scroll bars, rendering a snapshot, rescaling a pixmap) is the interface
    [Toolkit]; the development holds for every implementation of it. *)

From Stdlib Require Import ZArith Bool String Lia.
From Stdlib Require Import Floats.PrimFloat Floats.FloatOps Floats.SpecFloat.
From stdpp Require Import base list.

Local Open Scope Z_scope.

(* Decimal literals denote the nearest double, as they do in Python. *)
Set Warnings "-inexact-float".

(** ** Python numbers *)

Module Py.

(** The two exceptions the arithmetic of the program can raise. *)
Inductive exn := ValueError | OverflowError.

(** [int(f)] for a float: truncation toward zero; [ValueError] on a NaN,
  [OverflowError] on an infinity. *)
Definition int_of_float (f : float) : exn + Z :=
  match Prim2SF f with
  | S754_nan => inl ValueError
  | S754_infinity _ => inl OverflowError
  | S754_zero _ => inr 0
  | S754_finite s m e =>
      let a := if 0 <=? e then Z.pos m * 2 ^ e else Z.pos m / 2 ^ (- e) in
      inr (if s then - a else a)
  end.

(** The conversion of an [int] operand of a mixed [int * float]
  product: the nearest double, [OverflowError] past the largest one. *)
Definition float_of_int (n : Z) : exn + float :=
  match binary_normalize prec emax n 0 false with
  | S754_infinity _ => inl OverflowError
  | sf => inr (SF2Prim sf)
  end.

(** [n * f] with [n] an [int] and [f] a [float]. *)
Definition mul_int_float (n : Z) (f : float) : exn + float :=
  match float_of_int n with
  | inl e => inl e
  | inr x => inr (x * f)%float
  end.

End Py.

(** The double nearest to an integer. *)
Definition float_of_Z (n : Z) : float := SF2Prim (binary_normalize prec emax n 0 false).

(** ** Toolkit values

    Colours are 32-bit ARGB words ([Format_ARGB32]), images are row-major
    pixel buffers, points and rectangles have integer coordinates, a
    [QPointF] and the entries of a [QTransform] are doubles. *)

Definition QRgb := Z.

Definition qRgba (r g b a : Z) : QRgb :=
  Z.lor (Z.shiftl (Z.land a 255) 24)
    (Z.lor (Z.shiftl (Z.land r 255) 16)
       (Z.lor (Z.shiftl (Z.land g 255) 8) (Z.land b 255))).

Definition qAlpha (c : QRgb) : Z := Z.land (Z.shiftr c 24) 255.
Definition qRed (c : QRgb) : Z := Z.land (Z.shiftr c 16) 255.
Definition qGreen (c : QRgb) : Z := Z.land (Z.shiftr c 8) 255.
Definition qBlue (c : QRgb) : Z := Z.land c 255.

(** [QColor(0,0,0,255)], [Qt.white], [Qt.transparent]. *)
Definition opaque_black : QRgb := qRgba 0 0 0 255.
Definition Qt_white : QRgb := qRgba 255 255 255 255.
Definition Qt_transparent : QRgb := qRgba 0 0 0 0.

Record QPoint := { pt_x : Z; pt_y : Z }.
Record QPointF := { ptf_x : float; ptf_y : float }.
Record QSize := { sz_width : Z; sz_height : Z }.
Record QRect := { rect_x : Z; rect_y : Z; rect_width : Z; rect_height : Z }.

Record QTransform := {
  m11 : float; m12 : float; m13 : float;
  m21 : float; m22 : float; m23 : float;
  m31 : float; m32 : float; m33 : float
}.

(** The matrix of a view that has not been transformed. *)
Definition identity_transform : QTransform :=
  {| m11 := 1; m12 := 0; m13 := 0;
     m21 := 0; m22 := 1; m23 := 0;
     m31 := 0; m32 := 0; m33 := 1 |}.

Record QImage := { width : Z; height : Z; pixels : list QRgb }.

(** A pixmap is an image held by the window system; [QPixmap.fromImage]
    copies the pixels, which in a value model is the identity. *)
Abbreviation QPixmap := QImage (only parsing).

Definition null_image : QImage := {| width := 0; height := 0; pixels := [] |}.

Definition isNull (img : QImage) : bool := (width img <=? 0) || (height img <=? 0).

(** [QImage(w, h, Format_ARGB32)]: a buffer of [w * h] pixels (its content
    is whatever the allocation holds; every use in the program fills it
    at once), the null image when a side is not positive. *)
Definition QImage_new (w h : Z) : QImage :=
  if (0 <? w) && (0 <? h)
  then {| width := w; height := h; pixels := replicate (Z.to_nat (w * h)) 0 |}
  else null_image.

(** [img.fill(c)]. *)
Definition fill (c : QRgb) (img : QImage) : QImage :=
  {| width := width img; height := height img; pixels := (fun _ => c) <$> pixels img |}.

(** [pixmap.rect()]. *)
Definition rect (img : QImage) : QRect :=
  {| rect_x := 0; rect_y := 0; rect_width := width img; rect_height := height img |}.

Definition in_bounds (img : QImage) (x y : Z) : bool :=
  (0 <=? x) && (x <? width img) && (0 <=? y) && (y <? height img).

(** [img.pixel(x, y)], [None] outside the image. *)
Definition pixel (img : QImage) (x y : Z) : option QRgb :=
  if in_bounds img x y then pixels img !! Z.to_nat (y * width img + x) else None.

(** ** Painter *)

Inductive CompositionMode :=
| CompositionMode_SourceOver
| CompositionMode_Clear
| CompositionMode_Source.

(** A painter's settings: the pen and the brush are a colour, or [None]
    for [Qt.NoPen] and [Qt.NoBrush]. *)
Record QPainter := {
  compositionMode : CompositionMode;
  pen : option QRgb;
  brush : option QRgb
}.

(** A painter as [QPainter(image)] makes it: source-over composition, a
    black pen, no brush. *)
Definition QPainter_default : QPainter :=
  {| compositionMode := CompositionMode_SourceOver; pen := Some opaque_black; brush := None |}.

Inductive Tool := ToolNone | Erase | Paint.

Inductive DragMode := NoDrag | ScrollHandDrag.

Inductive MouseButton := LeftButton | RightButton | MiddleButton.

(** ** The toolkit

    What the program asks of Qt and does not compute itself.  A view keeps
    its matrix, which only the calls that set it change ([scale],
    [translate], [fitInView], [setTransform]), and a [Scroll]: the scroll
    bars, the viewport size, the state of a hand drag, which the toolkit
    adjusts on its own whenever the matrix, the scene or the widget
    changes. *)
Class Toolkit := {
  (** the pixels an aliased [drawEllipse] over a rectangle fills with the
      brush, and the pixels it strokes with the pen *)
  ellipse_fill : QRect -> Z -> Z -> bool;
  ellipse_outline : QRect -> Z -> Z -> bool;
  (** source-over blending of a colour onto a pixel *)
  source_over : QRgb -> QRgb -> QRgb;
  (** [QTransform] arithmetic behind [view.scale] and [view.translate] *)
  scale : float -> float -> QTransform -> QTransform;
  translate : float -> float -> QTransform -> QTransform;
  Scroll : Type;
  scroll_init : Scroll;
  hvalue : Scroll -> Z;
  vvalue : Scroll -> Z;
  setHValue : Z -> Scroll -> Scroll;
  setVValue : Z -> Scroll -> Scroll;
  (** the matrix [view.fitInView(rect, Qt.KeepAspectRatio)] chooses *)
  fitInView_transform : QRect -> QTransform -> Scroll -> QTransform;
  (** what the view does to its scroll state when its matrix goes from
      the first to the second, when the scene rectangle is set, and when
      the widget gets a new size *)
  transformChanged : QTransform -> QTransform -> Scroll -> Scroll;
  sceneRectChanged : QRect -> QTransform -> Scroll -> Scroll;
  viewResized : QSize -> QTransform -> Scroll -> Scroll;
  mapToScene : QTransform -> Scroll -> QPoint -> QPointF;
  (** [overlay_item.mapFromScene] *)
  item_mapFromScene : QPointF -> QPointF;
  (** the base class's mouse handlers (hand-drag scrolling) *)
  base_mousePressEvent : DragMode -> MouseButton -> QPoint -> QTransform -> Scroll -> Scroll;
  base_mouseReleaseEvent : DragMode -> MouseButton -> QPoint -> QTransform -> Scroll -> Scroll;
  base_mouseMoveEvent : DragMode -> bool -> QPoint -> QTransform -> Scroll -> Scroll;
  (** [view.grab()]: the view rendered over the base and overlay pixmaps *)
  grab : QTransform -> Scroll -> QPixmap -> QPixmap -> QPixmap;
  (** [pixmap.scaled(size, Qt.KeepAspectRatio, Qt.SmoothTransformation)] *)
  scaled : QPixmap -> QSize -> QPixmap;
  (** the size the layout gives a label before any resize *)
  label_size_init : QSize;
  (** whether [QImage(size, size, Format_ARGB32)] in [update_cursor] gets
      its buffer: Qt refuses sizes beyond its limits and an allocation can
      fail, and the image is null then *)
  image_allocates : Z -> Z -> bool
}.

(** ** Outcomes

    A method either returns or raises; either way the objects it has
    mutated so far stay mutated. *)
Inductive outcome (S : Type) :=
| Returned (s : S)
| Raised (e : Py.exn) (s : S).

Arguments Returned {S} s.
Arguments Raised {S} e s.

Definition state_of {S : Type} (o : outcome S) : S :=
  match o with Returned s => s | Raised _ s => s end.

Definition returned {S : Type} (o : outcome S) : bool :=
  match o with Returned _ => true | Raised _ _ => false end.

(** Sequencing: the next statement runs only after a normal return. *)
Definition and_then {S : Type} (o : outcome S) (k : S -> outcome S) : outcome S :=
  match o with
  | Returned s => k s
  | Raised e s => Raised e s
  end.

(** A method of a part, run inside the whole. *)
Definition lift {P W : Type} (put : P -> W -> W) (o : outcome P) (w : W) : outcome W :=
  match o with
  | Returned p => Returned (put p w)
  | Raised e p => Raised e (put p w)
  end.

Notation "o >>> k" := (and_then o k) (at level 61, left associativity).

(** ** The objects of the program *)

(** The three [QGraphicsPixmapItem] objects the main window creates.  The
    view is handed a reference to the overlay item ([set_overlay]); the
    main window keeps the items themselves. *)
Inductive ItemRef := PixmapItem | OverlayItem | PreviewItem.

Record Items := {
  pixmap_of_pixmap_item : QPixmap;
  pixmap_of_overlay_item : QPixmap;
  pixmap_of_preview_item : QPixmap
}.

Definition item_pixmap (r : ItemRef) (it : Items) : QPixmap :=
  match r with
  | PixmapItem => pixmap_of_pixmap_item it
  | OverlayItem => pixmap_of_overlay_item it
  | PreviewItem => pixmap_of_preview_item it
  end.

(** [item.setPixmap(pm)]. *)
Definition setPixmap (r : ItemRef) (pm : QPixmap) (it : Items) : Items :=
  match r with
  | PixmapItem =>
      {| pixmap_of_pixmap_item := pm;
         pixmap_of_overlay_item := pixmap_of_overlay_item it;
         pixmap_of_preview_item := pixmap_of_preview_item it |}
  | OverlayItem =>
      {| pixmap_of_pixmap_item := pixmap_of_pixmap_item it;
         pixmap_of_overlay_item := pm;
         pixmap_of_preview_item := pixmap_of_preview_item it |}
  | PreviewItem =>
      {| pixmap_of_pixmap_item := pixmap_of_pixmap_item it;
         pixmap_of_overlay_item := pixmap_of_overlay_item it;
         pixmap_of_preview_item := pm |}
  end.

(** The bound methods of the main window that the view is given as
    callbacks. *)
Inductive Callback := cb_on_interaction_start | cb_on_interaction_end | cb_update_mirror.

(** The cursor pixmap of a brush tool, kept as the drawing that makes it:
    a transparent [glyph_size] x [glyph_size] image with one antialiased
    ellipse, inscribed in [glyph_ellipse], filled with [glyph_brush]. *)
Record CursorGlyph := {
  glyph_size : Z;
  glyph_ellipse : QRect;
  glyph_brush : QRgb
}.

Inductive QCursor :=
| ArrowCursor
| PixmapCursor (pix : CursorGlyph) (hotX hotY : Z).

(** The radius of the circle a cursor shows on screen: half the width of
    the ellipse drawn into its pixmap. *)
Definition cursor_radius (c : QCursor) : option Z :=
  match c with
  | ArrowCursor => None
  | PixmapCursor pix _ _ => Some (rect_width (glyph_ellipse pix) / 2)
  end.

(** A label shows a text or a pixmap; setting one clears the other. *)
Record QLabel := {
  label_text : string;
  label_pixmap : QPixmap;
  label_size : QSize
}.

Definition setText (t : string) (l : QLabel) : QLabel :=
  {| label_text := t; label_pixmap := null_image; label_size := label_size l |}.

Definition label_setPixmap (pm : QPixmap) (l : QLabel) : QLabel :=
  {| label_text := ""; label_pixmap := pm; label_size := label_size l |}.

Definition label_resized (sz : QSize) (l : QLabel) : QLabel :=
  {| label_text := label_text l; label_pixmap := label_pixmap l; label_size := sz |}.

(** The one main window, as the mirror windows refer to it. *)
Inductive MainWindowRef := the_main_window.

(** [MirrorWindow]. *)
Record MirrorWindow := {
  mw_main_window : option MainWindowRef;
  mw_label : QLabel;
  mw_visible : bool
}.

(** [StaticMirrorWindow]. *)
Record StaticMirrorWindow := {
  smw_main_window : option MainWindowRef;
  smw_label : QLabel;
  smw_original_pixmap : option QPixmap;
  smw_visible : bool
}.

Definition set_mirror_pixmap (pm : QPixmap) (m : MirrorWindow) : MirrorWindow :=
  {| mw_main_window := mw_main_window m;
     mw_label := label_setPixmap pm (mw_label m);
     mw_visible := mw_visible m |}.

(** The binding converts a Python [int] argument of a Qt call to a C
    [int] and raises [OverflowError] when it does not fit. *)
Definition fits_c_int (n : Z) : bool := (-2147483648 <=? n) && (n <=? 2147483647).

Definition is_brush (t : Tool) : bool :=
  match t with ToolNone => false | Erase | Paint => true end.

Section Program.
Context {tk : Toolkit}.

(** *** [QPainter.drawEllipse] on an image *)

Definition compose (mode : CompositionMode) (src dst : QRgb) : QRgb :=
  match mode with
  | CompositionMode_Clear => Qt_transparent
  | CompositionMode_Source => src
  | CompositionMode_SourceOver => if qAlpha src =? 255 then src else source_over src dst
  end.

(** One pixel of [drawEllipse]: the brush fills, then the pen strokes. *)
Definition draw_pixel (p : QPainter) (r : QRect) (px py : Z) (d : QRgb) : QRgb :=
  let filled :=
    match brush p with
    | Some c => if ellipse_fill r px py then compose (compositionMode p) c d else d
    | None => d
    end in
  match pen p with
  | Some c => if ellipse_outline r px py then compose (compositionMode p) c filled else filled
  | None => filled
  end.

(** [painter.drawEllipse(x, y, w, h)] with the painter open on [img]:
    pixels outside the image are clipped away. *)
Definition drawEllipse (p : QPainter) (x y w h : Z) (img : QImage) : QImage :=
  let r := {| rect_x := x; rect_y := y; rect_width := w; rect_height := h |} in
  {| width := width img;
     height := height img;
     pixels :=
       imap (fun i d => draw_pixel p r (Z.of_nat i mod width img) (Z.of_nat i / width img) d)
            (pixels img) |}.

(** *** [MyGraphicsView] *)

Record MyGraphicsView := {
  interaction_start_callback : option Callback;
  interaction_end_callback : option Callback;
  update_callback : option Callback;
  overlay_image : option QImage;
  overlay_item : option ItemRef;
  tool : Tool;
  brush_radius : Z;
  dragMode : DragMode;
  cursor : QCursor;
  transform : QTransform;
  scroll : Scroll
}.

(** [MyGraphicsView.__init__]. *)
Definition MyGraphicsView_init : MyGraphicsView :=
  {| interaction_start_callback := None;
     interaction_end_callback := None;
     update_callback := None;
     overlay_image := None;
     overlay_item := None;
     tool := ToolNone;
     brush_radius := 20;
     dragMode := ScrollHandDrag;
     cursor := ArrowCursor;
     transform := identity_transform;
     scroll := scroll_init |}.

Definition set_overlay (overlay_img : QImage) (item : ItemRef) (v : MyGraphicsView)
  : MyGraphicsView :=
  {| interaction_start_callback := interaction_start_callback v;
     interaction_end_callback := interaction_end_callback v;
     update_callback := update_callback v;
     overlay_image := Some overlay_img;
     overlay_item := Some item;
     tool := tool v;
     brush_radius := brush_radius v;
     dragMode := dragMode v;
     cursor := cursor v;
     transform := transform v;
     scroll := scroll v |}.

Definition set_interaction_callbacks (start_callback end_callback update_cb : Callback)
  (v : MyGraphicsView) : MyGraphicsView :=
  {| interaction_start_callback := Some start_callback;
     interaction_end_callback := Some end_callback;
     update_callback := Some update_cb;
     overlay_image := overlay_image v;
     overlay_item := overlay_item v;
     tool := tool v;
     brush_radius := brush_radius v;
     dragMode := dragMode v;
     cursor := cursor v;
     transform := transform v;
     scroll := scroll v |}.

(** The attribute writes [self.overlay_image = ...], [self.tool = ...],
    [self.brush_radius = ...] and the toolkit setters of the view. *)
Definition with_overlay_image (img : QImage) (v : MyGraphicsView) : MyGraphicsView :=
  {| interaction_start_callback := interaction_start_callback v;
     interaction_end_callback := interaction_end_callback v;
     update_callback := update_callback v;
     overlay_image := Some img;
     overlay_item := overlay_item v;
     tool := tool v;
     brush_radius := brush_radius v;
     dragMode := dragMode v;
     cursor := cursor v;
     transform := transform v;
     scroll := scroll v |}.

Definition with_tool (t : Tool) (v : MyGraphicsView) : MyGraphicsView :=
  {| interaction_start_callback := interaction_start_callback v;
     interaction_end_callback := interaction_end_callback v;
     update_callback := update_callback v;
     overlay_image := overlay_image v;
     overlay_item := overlay_item v;
     tool := t;
     brush_radius := brush_radius v;
     dragMode := dragMode v;
     cursor := cursor v;
     transform := transform v;
     scroll := scroll v |}.

Definition with_brush_radius (r : Z) (v : MyGraphicsView) : MyGraphicsView :=
  {| interaction_start_callback := interaction_start_callback v;
     interaction_end_callback := interaction_end_callback v;
     update_callback := update_callback v;
     overlay_image := overlay_image v;
     overlay_item := overlay_item v;
     tool := tool v;
     brush_radius := r;
     dragMode := dragMode v;
     cursor := cursor v;
     transform := transform v;
     scroll := scroll v |}.

Definition setDragMode (m : DragMode) (v : MyGraphicsView) : MyGraphicsView :=
  {| interaction_start_callback := interaction_start_callback v;
     interaction_end_callback := interaction_end_callback v;
     update_callback := update_callback v;
     overlay_image := overlay_image v;
     overlay_item := overlay_item v;
     tool := tool v;
     brush_radius := brush_radius v;
     dragMode := m;
     cursor := cursor v;
     transform := transform v;
     scroll := scroll v |}.

Definition setCursor (c : QCursor) (v : MyGraphicsView) : MyGraphicsView :=
  {| interaction_start_callback := interaction_start_callback v;
     interaction_end_callback := interaction_end_callback v;
     update_callback := update_callback v;
     overlay_image := overlay_image v;
     overlay_item := overlay_item v;
     tool := tool v;
     brush_radius := brush_radius v;
     dragMode := dragMode v;
     cursor := c;
     transform := transform v;
     scroll := scroll v |}.

Definition with_transform (t : QTransform) (v : MyGraphicsView) : MyGraphicsView :=
  {| interaction_start_callback := interaction_start_callback v;
     interaction_end_callback := interaction_end_callback v;
     update_callback := update_callback v;
     overlay_image := overlay_image v;
     overlay_item := overlay_item v;
     tool := tool v;
     brush_radius := brush_radius v;
     dragMode := dragMode v;
     cursor := cursor v;
     transform := t;
     scroll := scroll v |}.

Definition with_scroll (sc : Scroll) (v : MyGraphicsView) : MyGraphicsView :=
  {| interaction_start_callback := interaction_start_callback v;
     interaction_end_callback := interaction_end_callback v;
     update_callback := update_callback v;
     overlay_image := overlay_image v;
     overlay_item := overlay_item v;
     tool := tool v;
     brush_radius := brush_radius v;
     dragMode := dragMode v;
     cursor := cursor v;
     transform := transform v;
     scroll := sc |}.

(** [view.setTransform(t)], which [view.scale], [view.translate] and
    [view.fitInView] end in: the matrix is replaced and the view adjusts
    its scroll state. *)
Definition setTransform (t : QTransform) (v : MyGraphicsView) : MyGraphicsView :=
  with_scroll (transformChanged (transform v) t (scroll v)) (with_transform t v).

(** [view.scale(sx, sy)], [view.translate(dx, dy)],
    [view.fitInView(rect, Qt.KeepAspectRatio)]. *)
Definition view_scale (sx sy : float) (v : MyGraphicsView) : MyGraphicsView :=
  setTransform (scale sx sy (transform v)) v.

Definition view_translate (dx dy : float) (v : MyGraphicsView) : MyGraphicsView :=
  setTransform (translate dx dy (transform v)) v.

Definition fitInView (r : QRect) (v : MyGraphicsView) : MyGraphicsView :=
  setTransform (fitInView_transform r (transform v) (scroll v)) v.

(** The zoom factor [update_cursor] reads off the view's matrix. *)
Definition scale_factor (t : QTransform) : float :=
  let scale_x := m11 t in
  let scale_y := m22 t in
  ((scale_x + scale_y) / 2)%float.

(** [screen_radius = max(1, int(self.brush_radius * scale_factor))]. *)
Definition screen_radius (radius : Z) (t : QTransform) : Py.exn + Z :=
  match Py.mul_int_float radius (scale_factor t) with
  | inl e => inl e
  | inr prod =>
      match Py.int_of_float prod with
      | inl e => inl e
      | inr n => inr (Z.max 1 n)
      end
  end.

(** The cursor [update_cursor] builds for a screen radius. *)
Definition brush_cursor (screen_radius : Z) : QCursor :=
  let size := Z.max 64 (screen_radius * 2 + 10) in
  let center := size / 2 in
  PixmapCursor
    {| glyph_size := size;
       glyph_ellipse :=
         {| rect_x := center - screen_radius; rect_y := center - screen_radius;
            rect_width := screen_radius * 2; rect_height := screen_radius * 2 |};
       glyph_brush := qRgba 255 255 255 100 |}
    center center.

(** [MyGraphicsView.update_cursor].  [QImage(size, size, ...)] raises when
    [size] does not fit a C [int]; the other integer arguments
    ([center - screen_radius], [screen_radius * 2], [center]) lie between
    0 and [size].  When the image gets no buffer it is null, painting on
    it does nothing, the pixmap made from it is null, and a [QCursor] made
    from a null pixmap is the arrow. *)
Definition update_cursor (v : MyGraphicsView) : outcome MyGraphicsView :=
  if negb (is_brush (tool v)) then Returned (setCursor ArrowCursor v)
  else
    match screen_radius (brush_radius v) (transform v) with
    | inl e => Raised e v
    | inr sr =>
        let size := Z.max 64 (sr * 2 + 10) in
        if negb (fits_c_int size) then Raised Py.OverflowError v
        else if image_allocates size size then Returned (setCursor (brush_cursor sr) v)
        else Returned (setCursor ArrowCursor v)
    end.

Definition set_tool (tool_name : Tool) (v : MyGraphicsView) : outcome MyGraphicsView :=
  let v := with_tool tool_name v in
  match tool v with
  | ToolNone => Returned (setCursor ArrowCursor (setDragMode ScrollHandDrag v))
  | _ => update_cursor (setDragMode NoDrag v)
  end.

Definition set_brush_radius (radius : Z) (v : MyGraphicsView) : outcome MyGraphicsView :=
  let v := with_brush_radius radius v in
  if is_brush (tool v) then update_cursor v else Returned v.

(** The painter [apply_brush] sets up for the tool; with neither brush
    tool selected the painter keeps its defaults. *)
Definition brush_painter (t : Tool) : QPainter :=
  match t with
  | Erase =>
      {| compositionMode := CompositionMode_Clear; pen := None; brush := Some Qt_white |}
  | Paint =>
      {| compositionMode := CompositionMode_Source; pen := None; brush := Some (qRgba 0 0 0 255) |}
  | ToolNone => QPainter_default
  end.

(** The overlay pixel under a view position:
    [int(item_point.x()), int(item_point.y())]. *)
Definition brush_point (v : MyGraphicsView) (view_pos : QPoint) : Py.exn + (Z * Z) :=
  let scene_point := mapToScene (transform v) (scroll v) view_pos in
  let item_point := item_mapFromScene scene_point in
  match Py.int_of_float (ptf_x item_point) with
  | inl e => inl e
  | inr x =>
      match Py.int_of_float (ptf_y item_point) with
      | inl e => inl e
      | inr y => inr (x, y)
      end
  end.

(** *** [StaticMirrorWindow] *)

Definition smw_with_label (l : QLabel) (m : StaticMirrorWindow) : StaticMirrorWindow :=
  {| smw_main_window := smw_main_window m;
     smw_label := l;
     smw_original_pixmap := smw_original_pixmap m;
     smw_visible := smw_visible m |}.

Definition update_display (m : StaticMirrorWindow) : StaticMirrorWindow :=
  match smw_original_pixmap m with
  | None => m
  | Some pm =>
      if isNull pm then m
      else
        let size := label_size (smw_label m) in
        smw_with_label (label_setPixmap (scaled pm size) (smw_label m)) m
  end.

Definition set_image (pixmap : QPixmap) (m : StaticMirrorWindow) : StaticMirrorWindow :=
  update_display
    {| smw_main_window := smw_main_window m;
       smw_label := smw_label m;
       smw_original_pixmap := Some pixmap;
       smw_visible := smw_visible m |}.

(** [StaticMirrorWindow.resizeEvent]: the layout gives the label its new
    size, then the image is rescaled. *)
Definition StaticMirrorWindow_resizeEvent (sz : QSize) (m : StaticMirrorWindow)
  : StaticMirrorWindow :=
  update_display (smw_with_label (label_resized sz (smw_label m)) m).

(** *** [PreviewGraphicsView]

    The translucent view laid over the primary one; it takes no input. *)
Record PreviewGraphicsView := {
  pv_transform : QTransform;
  pv_scroll : Scroll
}.

Definition pv_setTransform (t : QTransform) (p : PreviewGraphicsView) : PreviewGraphicsView :=
  {| pv_transform := t; pv_scroll := transformChanged (pv_transform p) t (pv_scroll p) |}.

Definition pv_with_scroll (sc : Scroll) (p : PreviewGraphicsView) : PreviewGraphicsView :=
  {| pv_transform := pv_transform p; pv_scroll := sc |}.

(** *** [MainWindow] *)

Record MainWindow := {
  view : MyGraphicsView;
  items : Items;
  interactive_scene_rect : QRect;
  preview_scene_rect : QRect;
  preview_view : PreviewGraphicsView;
  tabs_currentIndex : Z;
  static_label : QLabel;
  mirror_window : MirrorWindow;
  static_mirror_window : StaticMirrorWindow;
  erase_btn : bool;
  paint_btn : bool;
  brush_slider : Z;
  interaction_timer : bool;
  isVisible : bool
}.

Definition with_view (v : MyGraphicsView) (w : MainWindow) : MainWindow :=
  {| view := v; items := items w;
     interactive_scene_rect := interactive_scene_rect w;
     preview_scene_rect := preview_scene_rect w;
     preview_view := preview_view w;
     tabs_currentIndex := tabs_currentIndex w;
     static_label := static_label w;
     mirror_window := mirror_window w;
     static_mirror_window := static_mirror_window w;
     erase_btn := erase_btn w; paint_btn := paint_btn w;
     brush_slider := brush_slider w;
     interaction_timer := interaction_timer w;
     isVisible := isVisible w |}.

Definition with_items (it : Items) (w : MainWindow) : MainWindow :=
  {| view := view w; items := it;
     interactive_scene_rect := interactive_scene_rect w;
     preview_scene_rect := preview_scene_rect w;
     preview_view := preview_view w;
     tabs_currentIndex := tabs_currentIndex w;
     static_label := static_label w;
     mirror_window := mirror_window w;
     static_mirror_window := static_mirror_window w;
     erase_btn := erase_btn w; paint_btn := paint_btn w;
     brush_slider := brush_slider w;
     interaction_timer := interaction_timer w;
     isVisible := isVisible w |}.

Definition with_interactive_scene_rect (r : QRect) (w : MainWindow) : MainWindow :=
  {| view := view w; items := items w;
     interactive_scene_rect := r;
     preview_scene_rect := preview_scene_rect w;
     preview_view := preview_view w;
     tabs_currentIndex := tabs_currentIndex w;
     static_label := static_label w;
     mirror_window := mirror_window w;
     static_mirror_window := static_mirror_window w;
     erase_btn := erase_btn w; paint_btn := paint_btn w;
     brush_slider := brush_slider w;
     interaction_timer := interaction_timer w;
     isVisible := isVisible w |}.

Definition with_preview_scene_rect (r : QRect) (w : MainWindow) : MainWindow :=
  {| view := view w; items := items w;
     interactive_scene_rect := interactive_scene_rect w;
     preview_scene_rect := r;
     preview_view := preview_view w;
     tabs_currentIndex := tabs_currentIndex w;
     static_label := static_label w;
     mirror_window := mirror_window w;
     static_mirror_window := static_mirror_window w;
     erase_btn := erase_btn w; paint_btn := paint_btn w;
     brush_slider := brush_slider w;
     interaction_timer := interaction_timer w;
     isVisible := isVisible w |}.

Definition with_preview_view (g : PreviewGraphicsView) (w : MainWindow) : MainWindow :=
  {| view := view w; items := items w;
     interactive_scene_rect := interactive_scene_rect w;
     preview_scene_rect := preview_scene_rect w;
     preview_view := g;
     tabs_currentIndex := tabs_currentIndex w;
     static_label := static_label w;
     mirror_window := mirror_window w;
     static_mirror_window := static_mirror_window w;
     erase_btn := erase_btn w; paint_btn := paint_btn w;
     brush_slider := brush_slider w;
     interaction_timer := interaction_timer w;
     isVisible := isVisible w |}.

Definition with_tabs_currentIndex (i : Z) (w : MainWindow) : MainWindow :=
  {| view := view w; items := items w;
     interactive_scene_rect := interactive_scene_rect w;
     preview_scene_rect := preview_scene_rect w;
     preview_view := preview_view w;
     tabs_currentIndex := i;
     static_label := static_label w;
     mirror_window := mirror_window w;
     static_mirror_window := static_mirror_window w;
     erase_btn := erase_btn w; paint_btn := paint_btn w;
     brush_slider := brush_slider w;
     interaction_timer := interaction_timer w;
     isVisible := isVisible w |}.

Definition with_static_label (l : QLabel) (w : MainWindow) : MainWindow :=
  {| view := view w; items := items w;
     interactive_scene_rect := interactive_scene_rect w;
     preview_scene_rect := preview_scene_rect w;
     preview_view := preview_view w;
     tabs_currentIndex := tabs_currentIndex w;
     static_label := l;
     mirror_window := mirror_window w;
     static_mirror_window := static_mirror_window w;
     erase_btn := erase_btn w; paint_btn := paint_btn w;
     brush_slider := brush_slider w;
     interaction_timer := interaction_timer w;
     isVisible := isVisible w |}.

Definition with_mirror_window (m : MirrorWindow) (w : MainWindow) : MainWindow :=
  {| view := view w; items := items w;
     interactive_scene_rect := interactive_scene_rect w;
     preview_scene_rect := preview_scene_rect w;
     preview_view := preview_view w;
     tabs_currentIndex := tabs_currentIndex w;
     static_label := static_label w;
     mirror_window := m;
     static_mirror_window := static_mirror_window w;
     erase_btn := erase_btn w; paint_btn := paint_btn w;
     brush_slider := brush_slider w;
     interaction_timer := interaction_timer w;
     isVisible := isVisible w |}.

Definition with_static_mirror_window (m : StaticMirrorWindow) (w : MainWindow) : MainWindow :=
  {| view := view w; items := items w;
     interactive_scene_rect := interactive_scene_rect w;
     preview_scene_rect := preview_scene_rect w;
     preview_view := preview_view w;
     tabs_currentIndex := tabs_currentIndex w;
     static_label := static_label w;
     mirror_window := mirror_window w;
     static_mirror_window := m;
     erase_btn := erase_btn w; paint_btn := paint_btn w;
     brush_slider := brush_slider w;
     interaction_timer := interaction_timer w;
     isVisible := isVisible w |}.

(** [erase_btn.setChecked], [paint_btn.setChecked], [brush_slider.setValue]
    (none of them emits [clicked]). *)
Definition erase_btn_setChecked (b : bool) (w : MainWindow) : MainWindow :=
  {| view := view w; items := items w;
     interactive_scene_rect := interactive_scene_rect w;
     preview_scene_rect := preview_scene_rect w;
     preview_view := preview_view w;
     tabs_currentIndex := tabs_currentIndex w;
     static_label := static_label w;
     mirror_window := mirror_window w;
     static_mirror_window := static_mirror_window w;
     erase_btn := b; paint_btn := paint_btn w;
     brush_slider := brush_slider w;
     interaction_timer := interaction_timer w;
     isVisible := isVisible w |}.

Definition paint_btn_setChecked (b : bool) (w : MainWindow) : MainWindow :=
  {| view := view w; items := items w;
     interactive_scene_rect := interactive_scene_rect w;
     preview_scene_rect := preview_scene_rect w;
     preview_view := preview_view w;
     tabs_currentIndex := tabs_currentIndex w;
     static_label := static_label w;
     mirror_window := mirror_window w;
     static_mirror_window := static_mirror_window w;
     erase_btn := erase_btn w; paint_btn := b;
     brush_slider := brush_slider w;
     interaction_timer := interaction_timer w;
     isVisible := isVisible w |}.

Definition with_brush_slider (val : Z) (w : MainWindow) : MainWindow :=
  {| view := view w; items := items w;
     interactive_scene_rect := interactive_scene_rect w;
     preview_scene_rect := preview_scene_rect w;
     preview_view := preview_view w;
     tabs_currentIndex := tabs_currentIndex w;
     static_label := static_label w;
     mirror_window := mirror_window w;
     static_mirror_window := static_mirror_window w;
     erase_btn := erase_btn w; paint_btn := paint_btn w;
     brush_slider := val;
     interaction_timer := interaction_timer w;
     isVisible := isVisible w |}.

(** [interaction_timer.start()] and [.stop()]. *)
Definition with_interaction_timer (active : bool) (w : MainWindow) : MainWindow :=
  {| view := view w; items := items w;
     interactive_scene_rect := interactive_scene_rect w;
     preview_scene_rect := preview_scene_rect w;
     preview_view := preview_view w;
     tabs_currentIndex := tabs_currentIndex w;
     static_label := static_label w;
     mirror_window := mirror_window w;
     static_mirror_window := static_mirror_window w;
     erase_btn := erase_btn w; paint_btn := paint_btn w;
     brush_slider := brush_slider w;
     interaction_timer := active;
     isVisible := isVisible w |}.

Definition with_isVisible (b : bool) (w : MainWindow) : MainWindow :=
  {| view := view w; items := items w;
     interactive_scene_rect := interactive_scene_rect w;
     preview_scene_rect := preview_scene_rect w;
     preview_view := preview_view w;
     tabs_currentIndex := tabs_currentIndex w;
     static_label := static_label w;
     mirror_window := mirror_window w;
     static_mirror_window := static_mirror_window w;
     erase_btn := erase_btn w; paint_btn := paint_btn w;
     brush_slider := brush_slider w;
     interaction_timer := interaction_timer w;
     isVisible := b |}.

(** [MainWindow.__init__], followed by [w.show()]: the state in which the
    event loop starts. *)
Definition MainWindow_init : MainWindow :=
  {| view :=
       set_interaction_callbacks cb_on_interaction_start cb_on_interaction_end
         cb_update_mirror MyGraphicsView_init;
     items :=
       {| pixmap_of_pixmap_item := null_image;
          pixmap_of_overlay_item := null_image;
          pixmap_of_preview_item := null_image |};
     interactive_scene_rect := rect null_image;
     preview_scene_rect := rect null_image;
     preview_view := {| pv_transform := identity_transform; pv_scroll := scroll_init |};
     tabs_currentIndex := 0;
     static_label :=
       {| label_text := "No image loaded yet"; label_pixmap := null_image;
          label_size := label_size_init |};
     mirror_window :=
       {| mw_main_window := Some the_main_window;
          mw_label :=
            {| label_text := "Mirror content here."; label_pixmap := null_image;
               label_size := label_size_init |};
          mw_visible := true |};
     static_mirror_window :=
       {| smw_main_window := Some the_main_window;
          smw_label :=
            {| label_text := ""; label_pixmap := null_image; label_size := label_size_init |};
          smw_original_pixmap := None;
          smw_visible := true |};
     erase_btn := false;
     paint_btn := false;
     brush_slider := 20;
     interaction_timer := false;
     isVisible := true |}.

(** [MyGraphicsView.apply_brush].  The view reaches the overlay item
    through its reference, so the method acts on the main window's items
    as well as on the view's own image. *)
Definition apply_brush (view_pos : QPoint) (w : MainWindow) : outcome MainWindow :=
  match overlay_image (view w), overlay_item (view w) with
  | Some img, Some item =>
      (* an image object is false when it is null *)
      if isNull img then Returned w
      else
        match brush_point (view w) view_pos with
        | inl e => Raised e w
        | inr (x, y) =>
            let r := brush_radius (view w) in
            let painter := brush_painter (tool (view w)) in
            (* the arguments of [drawEllipse] are converted to C ints *)
            if negb (fits_c_int (x - r) && fits_c_int (y - r) && fits_c_int (r * 2))
            then Raised Py.OverflowError w
            else
              let img' := drawEllipse painter (x - r) (y - r) (r * 2) (r * 2) img in
              Returned (with_items (setPixmap item img' (items w))
                          (with_view (with_overlay_image img' (view w)) w))
        end
  | _, _ => Returned w
  end.

Definition on_interaction_start (w : MainWindow) : outcome MainWindow :=
  if negb (interaction_timer w) then Returned (with_interaction_timer true w)
  else Returned w.

Definition on_interaction_end (w : MainWindow) : outcome MainWindow :=
  if interaction_timer w then Returned (with_interaction_timer false w)
  else Returned w.

Definition sync_preview_transform (w : MainWindow) : MainWindow :=
  let tr := transform (view w) in
  let p := pv_setTransform tr (preview_view w) in
  let p := pv_with_scroll (setHValue (hvalue (scroll (view w))) (pv_scroll p)) p in
  let p := pv_with_scroll (setVValue (vvalue (scroll (view w))) (pv_scroll p)) p in
  with_preview_view p w.

Definition update_mirror (w : MainWindow) : outcome MainWindow :=
  let screenshot :=
    grab (transform (view w)) (scroll (view w))
      (item_pixmap PixmapItem (items w)) (item_pixmap OverlayItem (items w)) in
  let w := with_mirror_window (set_mirror_pixmap screenshot (mirror_window w)) w in
  let w := sync_preview_transform w in
  if is_brush (tool (view w)) then lift with_view (update_cursor (view w)) w
  else Returned w.

(** Calling a callback the view holds; an unset callback is skipped
    ([if self._update_callback: ...]). *)
Definition call (cb : Callback) (w : MainWindow) : outcome MainWindow :=
  match cb with
  | cb_on_interaction_start => on_interaction_start w
  | cb_on_interaction_end => on_interaction_end w
  | cb_update_mirror => update_mirror w
  end.

Definition call_if_set (cb : option Callback) (w : MainWindow) : outcome MainWindow :=
  match cb with
  | Some f => call f w
  | None => Returned w
  end.

(** [MyGraphicsView.wheelEvent]; [pos] is [event.position().toPoint()] and
    [angleDelta_y] is [event.angleDelta().y()]. *)
Definition wheelEvent (pos : QPoint) (angleDelta_y : Z) (w : MainWindow) : outcome MainWindow :=
  match tool (view w) with
  | Erase | Paint => Returned w
  | ToolNone =>
      call_if_set (interaction_start_callback (view w)) w >>> fun w =>
      let v := view w in
      let old_pos := mapToScene (transform v) (scroll v) pos in
      let zoom_factor := if 0 <? angleDelta_y then 1.2%float else (1 / 1.2)%float in
      let v := view_scale zoom_factor zoom_factor v in
      let new_pos := mapToScene (transform v) (scroll v) pos in
      let delta_x := (ptf_x new_pos - ptf_x old_pos)%float in
      let delta_y := (ptf_y new_pos - ptf_y old_pos)%float in
      let v := view_translate delta_x delta_y v in
      let w := with_view v w in
      call_if_set (update_callback (view w)) w
  end.

(** The call to the base class that ends each mouse handler. *)
Definition super_mouse (base : DragMode -> QTransform -> Scroll -> Scroll) (w : MainWindow)
  : outcome MainWindow :=
  let v := view w in
  Returned (with_view (with_scroll (base (dragMode v) (transform v) (scroll v)) v) w).

Definition mousePressEvent (button : MouseButton) (pos : QPoint) (w : MainWindow)
  : outcome MainWindow :=
  (match button with
   | LeftButton =>
       if is_brush (tool (view w)) then
         call_if_set (interaction_start_callback (view w)) w >>> fun w =>
         apply_brush pos w >>> fun w =>
         call_if_set (update_callback (view w)) w
       else call_if_set (interaction_start_callback (view w)) w
   | _ => Returned w
   end) >>> super_mouse (fun m => base_mousePressEvent m button pos).

Definition mouseReleaseEvent (button : MouseButton) (pos : QPoint) (w : MainWindow)
  : outcome MainWindow :=
  (match button with
   | LeftButton =>
       if is_brush (tool (view w)) then
         call_if_set (update_callback (view w)) w >>> fun w =>
         call_if_set (interaction_end_callback (view w)) w
       else
         call_if_set (update_callback (view w)) w >>> fun w =>
         call_if_set (interaction_end_callback (view w)) w
   | _ => Returned w
   end) >>> super_mouse (fun m => base_mouseReleaseEvent m button pos).

(** [left_down] is [event.buttons() & Qt.LeftButton]. *)
Definition mouseMoveEvent (left_down : bool) (pos : QPoint) (w : MainWindow)
  : outcome MainWindow :=
  (if is_brush (tool (view w)) && left_down then
     apply_brush pos w >>> fun w =>
     call_if_set (update_callback (view w)) w
   else Returned w) >>> super_mouse (fun m => base_mouseMoveEvent m left_down pos).

Definition load_interactive_image (pixmap : QPixmap) (w : MainWindow) : outcome MainWindow :=
  let w := with_items (setPixmap PixmapItem pixmap (items w)) w in
  let w := with_interactive_scene_rect (rect pixmap) w in
  let w :=
    with_view
      (with_scroll (sceneRectChanged (rect pixmap) (transform (view w)) (scroll (view w)))
         (view w)) w in
  let w := with_view (fitInView (interactive_scene_rect w) (view w)) w in
  let overlay_img := QImage_new (width pixmap) (height pixmap) in
  let overlay_img := fill (qRgba 0 0 0 255) overlay_img in
  let w := with_items (setPixmap OverlayItem overlay_img (items w)) w in
  let w := with_view (set_overlay overlay_img OverlayItem (view w)) w in
  let w := with_items (setPixmap PreviewItem pixmap (items w)) w in
  let w := with_preview_scene_rect (rect pixmap) w in
  let w :=
    with_preview_view
      (pv_with_scroll
         (sceneRectChanged (rect pixmap) (pv_transform (preview_view w))
            (pv_scroll (preview_view w)))
         (preview_view w)) w in
  let w := with_preview_view (pv_setTransform (transform (view w)) (preview_view w)) w in
  let w := erase_btn_setChecked false w in
  let w := paint_btn_setChecked false w in
  lift with_view (set_tool ToolNone (view w)) w >>> update_mirror.

Definition load_static_image (pixmap : QPixmap) (w : MainWindow) : outcome MainWindow :=
  let w := with_static_label (setText "" (static_label w)) w in
  let size := label_size (static_label w) in
  let scaled_pm := scaled pixmap size in
  let w := with_static_label (label_setPixmap scaled_pm (static_label w)) w in
  Returned (with_static_mirror_window (set_image pixmap (static_mirror_window w)) w).

(** [MainWindow.on_open_image]; [path] is what the file dialog returns
    ([""] when it is cancelled) and [pm] is [QPixmap(path)], null when the
    file does not decode. *)
Definition on_open_image (path : string) (pm : QPixmap) (w : MainWindow) : outcome MainWindow :=
  if String.eqb path "" then Returned w
  else if isNull pm then Returned w
  else
    let current_tab := tabs_currentIndex w in
    if current_tab =? 0 then load_interactive_image pm w
    else load_static_image pm w.

Definition on_erase_clicked (checked : bool) (w : MainWindow) : outcome MainWindow :=
  if checked then
    let w := paint_btn_setChecked false w in
    lift with_view (set_tool Erase (view w)) w
  else if negb (paint_btn w) then lift with_view (set_tool ToolNone (view w)) w
  else Returned w.

Definition on_paint_clicked (checked : bool) (w : MainWindow) : outcome MainWindow :=
  if checked then
    let w := erase_btn_setChecked false w in
    lift with_view (set_tool Paint (view w)) w
  else if negb (erase_btn w) then lift with_view (set_tool ToolNone (view w)) w
  else Returned w.

Definition on_brush_slider_changed (val : Z) (w : MainWindow) : outcome MainWindow :=
  lift with_view (set_brush_radius val (view w)) w.

(** [MirrorWindow.closeEvent] and [StaticMirrorWindow.closeEvent]: [true]
    when the close event is accepted (the base class accepts it), [false]
    when it is ignored. *)
Definition MirrorWindow_closeEvent (w : MainWindow) : bool :=
  match mw_main_window (mirror_window w) with
  | Some the_main_window => if isVisible w then false else true
  | None => true
  end.

Definition StaticMirrorWindow_closeEvent (w : MainWindow) : bool :=
  match smw_main_window (static_mirror_window w) with
  | Some the_main_window => if isVisible w then false else true
  | None => true
  end.

(** [window.close()]: the window gets a close event and is hidden when
    the event is accepted. *)
Definition MirrorWindow_close (w : MainWindow) : MainWindow :=
  if MirrorWindow_closeEvent w then
    with_mirror_window
      {| mw_main_window := mw_main_window (mirror_window w);
         mw_label := mw_label (mirror_window w);
         mw_visible := false |} w
  else w.

Definition StaticMirrorWindow_close (w : MainWindow) : MainWindow :=
  if StaticMirrorWindow_closeEvent w then
    with_static_mirror_window
      {| smw_main_window := smw_main_window (static_mirror_window w);
         smw_label := smw_label (static_mirror_window w);
         smw_original_pixmap := smw_original_pixmap (static_mirror_window w);
         smw_visible := false |} w
  else w.

(** [MainWindow.closeEvent]: both mirrors are detached and closed, then
    the base class accepts the event and the main window is hidden. *)
Definition MainWindow_closeEvent (w : MainWindow) : MainWindow :=
  let w :=
    with_mirror_window
      {| mw_main_window := None;
         mw_label := mw_label (mirror_window w);
         mw_visible := mw_visible (mirror_window w) |} w in
  let w := MirrorWindow_close w in
  let w :=
    with_static_mirror_window
      {| smw_main_window := None;
         smw_label := smw_label (static_mirror_window w);
         smw_original_pixmap := smw_original_pixmap (static_mirror_window w);
         smw_visible := smw_visible (static_mirror_window w) |} w in
  let w := StaticMirrorWindow_close w in
  with_isVisible false w.

(** [MainWindow.resizeEvent]: the base class lays the children out (the
    view and the static label get their new sizes), then the preview is
    put over the view when the interactive tab is shown. *)
Definition MainWindow_resizeEvent (view_size label_sz : QSize) (w : MainWindow) : MainWindow :=
  let w :=
    with_view
      (with_scroll (viewResized view_size (transform (view w)) (scroll (view w))) (view w)) w in
  let w := with_static_label (label_resized label_sz (static_label w)) w in
  if tabs_currentIndex w =? 0
  then
    with_preview_view
      (pv_with_scroll
         (viewResized view_size (pv_transform (preview_view w)) (pv_scroll (preview_view w)))
         (preview_view w)) w
  else w.

(** *** The event loop

    What the toolkit delivers to the program.  A click on a checkable
    button toggles it and emits [clicked(checked)]; the slider keeps its
    value within its range (1 to 200) and emits [valueChanged] when the
    value changes; the timer fires only while it is active; a moved
    scroll bar of the view emits [valueChanged], which is connected to
    [sync_preview_transform]. *)
Inductive Event :=
| Wheel (pos : QPoint) (angleDelta_y : Z)
| MousePress (button : MouseButton) (pos : QPoint)
| MouseRelease (button : MouseButton) (pos : QPoint)
| MouseMove (left_down : bool) (pos : QPoint)
| EraseClicked
| PaintClicked
| SliderMoved (val : Z)
| OpenImage (path : string) (pm : QPixmap)
| TabSelected (index : Z)
| TimerTimeout
| ScrollBarMoved (h v : Z)
| MainResized (view_size label_sz : QSize)
| StaticMirrorResized (label_sz : QSize)
| MirrorCloseRequest
| StaticMirrorCloseRequest
| MainCloseRequest.

Definition dispatch (ev : Event) (w : MainWindow) : outcome MainWindow :=
  match ev with
  | Wheel pos dy => wheelEvent pos dy w
  | MousePress button pos => mousePressEvent button pos w
  | MouseRelease button pos => mouseReleaseEvent button pos w
  | MouseMove left_down pos => mouseMoveEvent left_down pos w
  | EraseClicked =>
      let checked := negb (erase_btn w) in
      on_erase_clicked checked (erase_btn_setChecked checked w)
  | PaintClicked =>
      let checked := negb (paint_btn w) in
      on_paint_clicked checked (paint_btn_setChecked checked w)
  | SliderMoved val =>
      let val := Z.max 1 (Z.min 200 val) in
      if val =? brush_slider w then Returned w
      else on_brush_slider_changed val (with_brush_slider val w)
  | OpenImage path pm => on_open_image path pm w
  | TabSelected index =>
      if (index =? 0) || (index =? 1) then Returned (with_tabs_currentIndex index w)
      else Returned w
  | TimerTimeout => if interaction_timer w then update_mirror w else Returned w
  | ScrollBarMoved h v =>
      let sc := setVValue v (setHValue h (scroll (view w))) in
      Returned (sync_preview_transform (with_view (with_scroll sc (view w)) w))
  | MainResized view_size label_sz => Returned (MainWindow_resizeEvent view_size label_sz w)
  | StaticMirrorResized label_sz =>
      Returned (with_static_mirror_window
                  (StaticMirrorWindow_resizeEvent label_sz (static_mirror_window w)) w)
  | MirrorCloseRequest => Returned (MirrorWindow_close w)
  | StaticMirrorCloseRequest => Returned (StaticMirrorWindow_close w)
  | MainCloseRequest => Returned (MainWindow_closeEvent w)
  end.

(** An exception that leaves a handler is reported by the binding and the
    loop goes on with the objects as the handler left them. *)
Definition step (w : MainWindow) (ev : Event) : MainWindow := state_of (dispatch ev w).

Definition run (evs : list Event) (w : MainWindow) : MainWindow := fold_left step evs w.

End Program.

(** An interaction, in the words of the specification, is the span from a
    left-button press on the primary view to the matching release;
    [interaction_open evs] tells whether one is open after the events
    [evs]. *)
Definition interaction_open_step (open : bool) (ev : Event) : bool :=
  match ev with
  | MousePress LeftButton _ => true
  | MouseRelease LeftButton _ => false
  | _ => open
  end.

Definition interaction_open (evs : list Event) : bool :=
  fold_left interaction_open_step evs false.

(** ** Vocabulary of the properties

    The predicates the theorems below are stated with. *)

Section Vocabulary.
Context {tk : Toolkit}.

(** A method keeps a property of the main window, whether it returns or
    raises. *)
Definition preserves (P : MainWindow -> Prop) (f : MainWindow -> outcome MainWindow) : Prop :=
  forall w, P w -> P (state_of (f w)).

(** The events that are input to the view, timer ticks and scroll-bar
    moves. *)
Definition is_view_input (ev : Event) : bool :=
  match ev with
  | Wheel _ _ | MousePress _ _ | MouseRelease _ _ | MouseMove _ _
  | TimerTimeout | ScrollBarMoved _ _ => true
  | _ => false
  end.

(** The tool the two buttons stand for. *)
Definition tool_of_buttons (erase paint : bool) : Tool :=
  if erase then Erase else if paint then Paint else ToolNone.

(** The buttons are not both checked and the tool is the one they stand
    for. *)
Definition buttons_consistent (w : MainWindow) : Prop :=
  erase_btn w && paint_btn w = false
  /\ tool (view w) = tool_of_buttons (erase_btn w) (paint_btn w).

(** Whether opening an image in state [w] goes down the interactive
    tab's load path. *)
Definition loads_interactive (path : string) (pm : QPixmap) (w : MainWindow) : bool :=
  negb (String.eqb path "") && negb (isNull pm) && (tabs_currentIndex w =? 0).




(** No event of [evs], run from [w], is an open-image action that goes
    down the interactive tab's load path. *)
Fixpoint no_interactive_load (evs : list Event) (w : MainWindow) : bool :=
  match evs with
  | [] => true
  | ev :: evs' =>
      match ev with
      | OpenImage path pm => negb (loads_interactive path pm w)
      | _ => true
      end && no_interactive_load evs' (step w ev)
  end.

(** The pixel buffer has one entry per pixel. *)
Definition well_formed (img : QImage) : Prop :=
  length (pixels img) = Z.to_nat (width img * height img).

(** The rectangle [apply_brush] hands to [drawEllipse] for a brush centred
    on [(x, y)]. *)
Definition brush_rect (x y r : Z) : QRect :=
  {| rect_x := x - r; rect_y := y - r; rect_width := r * 2; rect_height := r * 2 |}.

(** What a later stroke reads of the state: two states agree on where the
    brush lands, how large it is and what it draws on. *)
Definition same_stroke_inputs (a b : MainWindow) : Prop :=
  transform (view a) = transform (view b)
  /\ scroll (view a) = scroll (view b)
  /\ brush_radius (view a) = brush_radius (view b)
  /\ overlay_image (view a) = overlay_image (view b)
  /\ overlay_item (view a) = overlay_item (view b).

(** The cursor agrees with the tool, the brush radius and the matrix:
    an arrow without a brush tool; with one, the glyph [update_cursor]
    draws for the current radius and zoom, or the arrow when the glyph's
    image gets no buffer, unless the update raises (the radius is not a
    finite number, or the side of the image does not fit a C int). *)
Definition glyph_matches (v : MyGraphicsView) : Prop :=
  match tool v with
  | ToolNone => cursor v = ArrowCursor
  | _ =>
      match screen_radius (brush_radius v) (transform v) with
      | inr sr =>
          let size := Z.max 64 (sr * 2 + 10) in
          if fits_c_int size
          then cursor v = if image_allocates size size then brush_cursor sr else ArrowCursor
          else True
      | inl _ => True
      end
  end.

(** The cursor matches and the brush radius is within the slider's
    range. *)
Definition cursor_invariant (w : MainWindow) : Prop :=
  glyph_matches (view w) /\ 1 <= brush_radius (view w) <= 200.

(** The view holds the three callbacks [MainWindow.__init__] gave it. *)
Definition callbacks_wired (w : MainWindow) : Prop :=
  interaction_start_callback (view w) = Some cb_on_interaction_start
  /\ interaction_end_callback (view w) = Some cb_on_interaction_end
  /\ update_callback (view w) = Some cb_update_mirror.

(** The timer is in state [b] and the callbacks are wired. *)
Definition timer_is (b : bool) (w : MainWindow) : Prop :=
  interaction_timer w = b /\ callbacks_wired w.

(** A scroll-wheel event. *)
Definition is_wheel (ev : Event) : bool :=
  match ev with Wheel _ _ => true | _ => false end.

(** Every handler of the run of [evs] from [w] returns: none raises. *)
Fixpoint all_returned (evs : list Event) (w : MainWindow) : bool :=
  match evs with
  | [] => true
  | ev :: evs' => returned (dispatch ev w) && all_returned evs' (step w ev)
  end.

(** Hand-drag scrolling is on exactly when no brush tool is selected. *)
Definition drag_follows_tool (w : MainWindow) : Prop :=
  dragMode (view w) = match tool (view w) with ToolNone => ScrollHandDrag | _ => NoDrag end.

(** The view's brush radius is the slider's value, within the slider's
    range. *)
Definition radius_follows_slider (w : MainWindow) : Prop :=
  brush_radius (view w) = brush_slider w /\ 1 <= brush_slider w <= 200.

(** The callbacks are wired and the preview view has the matrix of the
    primary view. *)
Definition preview_in_step (w : MainWindow) : Prop :=
  callbacks_wired w /\ pv_transform (preview_view w) = transform (view w).

(** The overlay is in place: the preview item shows the base pixmap; the
    view has no overlay and no base image yet, or it has a well-formed,
    non-null overlay image of the size of the base pixmap, which the
    overlay item shows. *)
Definition overlay_in_place (w : MainWindow) : Prop :=
  item_pixmap PreviewItem (items w) = item_pixmap PixmapItem (items w)
  /\ match overlay_image (view w) with
     | None => overlay_item (view w) = None /\ item_pixmap PixmapItem (items w) = null_image
     | Some img =>
         overlay_item (view w) = Some OverlayItem
         /\ item_pixmap OverlayItem (items w) = img
         /\ isNull img = false
         /\ width img = width (item_pixmap PixmapItem (items w))
         /\ height img = height (item_pixmap PixmapItem (items w))
         /\ well_formed img
     end.

(** The events that can draw on the overlay or replace it, in state [w]:
    a left-button press and a move with the left button down while a
    brush tool is selected, and a load into the interactive tab. *)
Definition may_change_overlay (ev : Event) (w : MainWindow) : bool :=
  match ev with
  | MousePress LeftButton _ | MouseMove true _ => is_brush (tool (view w))
  | OpenImage path pm => loads_interactive path pm w
  | _ => false
  end.

(** The events that can change the view's matrix, in state [w]: a wheel
    event while no brush tool is selected, and a load into the interactive
    tab. *)
Definition may_change_matrix (ev : Event) (w : MainWindow) : bool :=
  match ev with
  | Wheel _ _ => negb (is_brush (tool (view w)))
  | OpenImage path pm => loads_interactive path pm w
  | _ => false
  end.

(** The colour a brush stroke leaves on the pixels it covers: erase
    clears them, paint makes them opaque black. *)
Definition stroke_colour (t : Tool) : QRgb :=
  match t with Erase => Qt_transparent | _ => opaque_black end.

(** The static mirror shows its original image scaled to its label:
    before any image is set the label has no pixmap; afterwards the
    original is not null and the label shows it scaled to the size the
    label has now. *)
Definition static_mirror_scaled (w : MainWindow) : Prop :=
  let m := static_mirror_window w in
  match smw_original_pixmap m with
  | None => label_pixmap (smw_label m) = null_image
  | Some pm =>
      isNull pm = false
      /\ label_pixmap (smw_label m) = scaled pm (label_size (smw_label m))
  end.

(** A cursor as [update_cursor] leaves it: the arrow, or a square glyph
    of at least 64 pixels whose hot spot is its centre and whose circle,
    of radius at least one, is centred on the hot spot and keeps five
    pixels from every edge. *)
Definition glyph_well_shaped (c : QCursor) : Prop :=
  match c with
  | ArrowCursor => True
  | PixmapCursor g hotX hotY =>
      let e := glyph_ellipse g in
      64 <= glyph_size g
      /\ hotX = glyph_size g / 2 /\ hotY = glyph_size g / 2
      /\ 2 <= rect_width e /\ rect_height e = rect_width e
      /\ rect_x e + rect_width e / 2 = hotX /\ rect_y e + rect_height e / 2 = hotY
      /\ 5 <= rect_x e /\ rect_x e + rect_width e + 5 <= glyph_size g
      /\ 5 <= rect_y e /\ rect_y e + rect_height e + 5 <= glyph_size g
  end.

Definition cursor_well_shaped (w : MainWindow) : Prop :=
  glyph_well_shaped (cursor (view w)).

(** Every event but a click on a tool button. *)
Definition no_tool_click (ev : Event) : bool :=
  match ev with EraseClicked | PaintClicked => false | _ => true end.

(** The arguments [apply_brush] hands to [drawEllipse] for a brush of
    radius [r] at pixel [(x, y)] fit C ints. *)
Definition brush_args_fit (x y r : Z) : bool :=
  fits_c_int (x - r) && fits_c_int (y - r) && fits_c_int (r * 2).

(** The scene point under a view position. *)
Definition scene_under (w : MainWindow) (p : QPoint) : QPointF :=
  mapToScene (transform (view w)) (scroll (view w)) p.

(** The outcome is the exception [e]. *)
Definition raises {S : Type} (e : Py.exn) (o : outcome S) : bool :=
  match o, e with
  | Raised Py.ValueError _, Py.ValueError => true
  | Raised Py.OverflowError _, Py.OverflowError => true
  | _, _ => false
  end.

End Vocabulary.

(** ** A small toolkit

    One implementation of [Toolkit], plain enough to run the program on
    concrete inputs: the view keeps a matrix and two scroll values, an
    ellipse covers the pixels whose centre lies inside it, a snapshot shows
    the overlay over the base image. *)

Record PlainScroll := { ps_h : Z; ps_v : Z }.

Definition plain_scale (sx sy : float) (t : QTransform) : QTransform :=
  {| m11 := (m11 t * sx)%float; m12 := (m12 t * sx)%float; m13 := m13 t;
     m21 := (m21 t * sy)%float; m22 := (m22 t * sy)%float; m23 := m23 t;
     m31 := m31 t; m32 := m32 t; m33 := m33 t |}.

Definition plain_translate (dx dy : float) (t : QTransform) : QTransform :=
  {| m11 := m11 t; m12 := m12 t; m13 := m13 t;
     m21 := m21 t; m22 := m22 t; m23 := m23 t;
     m31 := (m31 t + (dx * m11 t + dy * m21 t))%float;
     m32 := (m32 t + (dx * m12 t + dy * m22 t))%float;
     m33 := m33 t |}.

(** The scene rectangle is fitted into a viewport of 800 by 600. *)
Definition plain_fitInView (r : QRect) (t : QTransform) (sc : PlainScroll) : QTransform :=
  let rx := (800 / float_of_Z (rect_width r))%float in
  let ry := (600 / float_of_Z (rect_height r))%float in
  let s := if (rx <? ry)%float then rx else ry in
  {| m11 := s; m12 := 0; m13 := 0;
     m21 := 0; m22 := s; m23 := 0;
     m31 := 0; m32 := 0; m33 := 1 |}.

Definition plain_mapToScene (t : QTransform) (sc : PlainScroll) (p : QPoint) : QPointF :=
  {| ptf_x := ((float_of_Z (pt_x p + ps_h sc) - m31 t) / m11 t)%float;
     ptf_y := ((float_of_Z (pt_y p + ps_v sc) - m32 t) / m22 t)%float |}.

(** The centre of pixel [(px, py)] lies in the ellipse inscribed in [r]
    (all lengths doubled, to stay in the integers). *)
Definition plain_ellipse_fill (r : QRect) (px py : Z) : bool :=
  let w := rect_width r in
  let h := rect_height r in
  let dx := 2 * px + 1 - 2 * rect_x r - w in
  let dy := 2 * py + 1 - 2 * rect_y r - h in
  (0 <? w) && (0 <? h) && (dx * dx * (h * h) + dy * dy * (w * w) <=? w * w * (h * h)).

(** The filled pixels that touch a pixel that is not filled. *)
Definition plain_ellipse_outline (r : QRect) (px py : Z) : bool :=
  plain_ellipse_fill r px py
  && negb (plain_ellipse_fill r (px - 1) py && plain_ellipse_fill r (px + 1) py
           && plain_ellipse_fill r px (py - 1) && plain_ellipse_fill r px (py + 1)).

Definition plain_source_over (src dst : QRgb) : QRgb :=
  let a := qAlpha src in
  let mix s d := (s * a + d * (255 - a)) / 255 in
  qRgba (mix (qRed src) (qRed dst)) (mix (qGreen src) (qGreen dst))
        (mix (qBlue src) (qBlue dst)) (a + qAlpha dst * (255 - a) / 255).

#[export] Instance plain_toolkit : Toolkit :=
  {| ellipse_fill := plain_ellipse_fill;
     ellipse_outline := plain_ellipse_outline;
     source_over := plain_source_over;
     scale := plain_scale;
     translate := plain_translate;
     Scroll := PlainScroll;
     scroll_init := {| ps_h := 0; ps_v := 0 |};
     hvalue := ps_h;
     vvalue := ps_v;
     setHValue := fun h sc => {| ps_h := h; ps_v := ps_v sc |};
     setVValue := fun v sc => {| ps_h := ps_h sc; ps_v := v |};
     fitInView_transform := plain_fitInView;
     transformChanged := fun _ _ sc => sc;
     sceneRectChanged := fun _ _ sc => sc;
     viewResized := fun _ _ sc => sc;
     mapToScene := plain_mapToScene;
     item_mapFromScene := fun p => p;
     base_mousePressEvent := fun _ _ _ _ sc => sc;
     base_mouseReleaseEvent := fun _ _ _ _ sc => sc;
     base_mouseMoveEvent := fun _ _ _ _ sc => sc;
     grab := fun _ _ base overlay => if isNull overlay then base else overlay;
     scaled := fun pm sz =>
       {| width := sz_width sz; height := sz_height sz;
          pixels := replicate (Z.to_nat (sz_width sz * sz_height sz)) opaque_black |};
     label_size_init := {| sz_width := 640; sz_height := 480 |};
     image_allocates := fun w h => w * h * 4 <=? 2147483647 |}.

(** ** A view that keeps its centre

    The small toolkit leaves the scroll bars alone when the matrix
    changes.  Qt's [QGraphicsView] does not: unless its transformation
    anchor is set to [NoAnchor] (the default is [AnchorViewCenter], and
    the program never sets it) it centres the view again, after every
    change of the matrix, on the scene point that was at the centre of the
    viewport, by moving its scroll bars within their range; a scene that
    is not larger than the viewport is kept in the middle of it.  This
    toolkit is the small one with that behaviour, for a viewport of 800
    by 600. *)

Record CentredScroll := { cs_h : Z; cs_v : Z; cs_scene : QRect }.

(** The conversion of a double to an [int] in C. *)
Definition c_trunc (f : float) : Z :=
  match Py.int_of_float f with inr n => n | inl _ => 0 end.

(** The scroll offset along one axis that puts scene coordinate [c] at
    the middle of the viewport: within the scroll bar's range when the
    scene is longer than the viewport, and the offset that centres the
    scene otherwise. *)
Definition centred_offset (scale offset : float) (scene_pos scene_len viewport : Z)
  (c : float) : Z :=
  let left := (offset + scale * float_of_Z scene_pos)%float in
  let len := (scale * float_of_Z scene_len)%float in
  let vp := float_of_Z viewport in
  if (len <=? vp)%float then c_trunc (left - (vp - len) / 2)
  else
    Z.max (c_trunc left)
      (Z.min (c_trunc (left + len - vp)) (c_trunc (scale * c + offset - vp / 2))).

Definition centred_place (t : QTransform) (c : QPointF) (scene : QRect) : CentredScroll :=
  {| cs_h := centred_offset (m11 t) (m31 t) (rect_x scene) (rect_width scene) 800 (ptf_x c);
     cs_v := centred_offset (m22 t) (m32 t) (rect_y scene) (rect_height scene) 600 (ptf_y c);
     cs_scene := scene |}.

Definition centred_mapToScene (t : QTransform) (sc : CentredScroll) (p : QPoint) : QPointF :=
  {| ptf_x := ((float_of_Z (pt_x p + cs_h sc) - m31 t) / m11 t)%float;
     ptf_y := ((float_of_Z (pt_y p + cs_v sc) - m32 t) / m22 t)%float |}.

(** The scene point at the middle of the viewport. *)
Definition centred_centre (t : QTransform) (sc : CentredScroll) : QPointF :=
  centred_mapToScene t sc {| pt_x := 400; pt_y := 300 |}.

Definition centring_toolkit : Toolkit :=
  {| ellipse_fill := plain_ellipse_fill;
     ellipse_outline := plain_ellipse_outline;
     source_over := plain_source_over;
     scale := plain_scale;
     translate := plain_translate;
     Scroll := CentredScroll;
     scroll_init :=
       {| cs_h := -400; cs_v := -300;
          cs_scene := {| rect_x := 0; rect_y := 0; rect_width := 0; rect_height := 0 |} |};
     hvalue := cs_h;
     vvalue := cs_v;
     setHValue := fun h sc => {| cs_h := h; cs_v := cs_v sc; cs_scene := cs_scene sc |};
     setVValue := fun v sc => {| cs_h := cs_h sc; cs_v := v; cs_scene := cs_scene sc |};
     fitInView_transform := fun r t _ => plain_fitInView r t {| ps_h := 0; ps_v := 0 |};
     transformChanged :=
       fun old new sc => centred_place new (centred_centre old sc) (cs_scene sc);
     sceneRectChanged := fun r t sc => centred_place t (centred_centre t sc) r;
     viewResized := fun _ _ sc => sc;
     mapToScene := centred_mapToScene;
     item_mapFromScene := fun p => p;
     base_mousePressEvent := fun _ _ _ _ sc => sc;
     base_mouseReleaseEvent := fun _ _ _ _ sc => sc;
     base_mouseMoveEvent := fun _ _ _ _ sc => sc;
     grab := fun _ _ base overlay => if isNull overlay then base else overlay;
     scaled := fun pm sz =>
       {| width := sz_width sz; height := sz_height sz;
          pixels := replicate (Z.to_nat (sz_width sz * sz_height sz)) opaque_black |};
     label_size_init := {| sz_width := 640; sz_height := 480 |};
     image_allocates := fun w h => w * h * 4 <=? 2147483647 |}.

(** Sample inputs: an 8 x 6 image, which the small toolkit shows at a zoom
    of 100, and two view positions. *)
Definition sample_pixmap : QPixmap :=
  {| width := 8; height := 6; pixels := replicate 48 (qRgba 200 100 50 255) |}.

Definition origin : QPoint := {| pt_x := 0; pt_y := 0 |}.

Definition centre : QPoint := {| pt_x := 400; pt_y := 300 |}.

(** Brush radius times zoom, as a double. *)
Definition radius_times_zoom {tk : Toolkit} (v : MyGraphicsView) : float :=
  (float_of_Z (brush_radius v) * scale_factor (transform v))%float.

(** An image is loaded into the interactive tab, the brush is set to
    radius 2 and the erase tool is selected; then one erase stroke. *)
Definition ready_to_erase : @MainWindow plain_toolkit :=
  run [OpenImage "map.png" sample_pixmap; SliderMoved 2; EraseClicked] MainWindow_init.

Definition erased : @MainWindow plain_toolkit :=
  state_of (apply_brush centre ready_to_erase).

(** One notch of zoom out, then the erase tool. *)
Definition zoomed_out_erasing : @MainWindow plain_toolkit :=
  run [Wheel origin (-120); EraseClicked] MainWindow_init.

(** The erase tool is selected, then an image is opened in the
    interactive tab. *)
Definition erasing : @MainWindow plain_toolkit := run [EraseClicked] MainWindow_init.

(** A session: an image is loaded, the erase tool is chosen, one stroke
    is dragged and released while the timer ticks. *)
Definition erase_session : list Event :=
  [OpenImage "map.png" sample_pixmap; EraseClicked; MousePress LeftButton centre;
   TimerTimeout; MouseMove true origin; MouseRelease LeftButton origin; PaintClicked;
   MousePress LeftButton centre].

(** Events before any load into the interactive tab: a tool is chosen,
    an image is loaded into the static tab, a stroke is attempted. *)
Definition before_any_load : list Event :=
  [EraseClicked; TabSelected 1; OpenImage "map.png" sample_pixmap; TabSelected 0;
   MousePress LeftButton centre; MouseMove true origin; MouseRelease LeftButton origin].

(** The static tab is selected. *)
Definition static_tab : @MainWindow plain_toolkit := run [TabSelected 1] MainWindow_init.

(** Four thousand notches of zoom in: the matrix has overflowed to
    infinity. *)
Definition zoomed_to_overflow : @MainWindow plain_toolkit :=
  run (replicate 4000 (Wheel origin 120)) MainWindow_init.

(** An image is loaded, the view is zoomed out by 4500 notches, which
    leaves a matrix too small to map a view position to a finite scene
    position, and the erase tool is selected. *)
Definition zoomed_far_out : @MainWindow plain_toolkit :=
  run (OpenImage "map.png" sample_pixmap :: replicate 4500 (Wheel origin (-120))
         ++ [EraseClicked]) MainWindow_init.

(** A session without the tool buttons: an image is loaded, the view is
    zoomed, dragged and the brush slider is moved. *)
Definition pan_session : list Event :=
  [OpenImage "map.png" sample_pixmap; Wheel origin 120; MousePress LeftButton centre;
   MouseMove true origin; TimerTimeout; MouseRelease LeftButton origin; SliderMoved 50;
   MainResized {| sz_width := 1024; sz_height := 768 |} {| sz_width := 1000; sz_height := 700 |}].

(** A view position away from the middle of the viewport. *)
Definition off_centre : QPoint := {| pt_x := 100; pt_y := 100 |}.

(** The sample image is loaded into the interactive tab, on the small
    toolkit and on the one that keeps the view's centre. *)
Definition loaded : @MainWindow plain_toolkit :=
  run [OpenImage "map.png" sample_pixmap] MainWindow_init.

Definition loaded_centred : @MainWindow centring_toolkit :=
  run (tk := centring_toolkit) [OpenImage "map.png" sample_pixmap] MainWindow_init.

(** Ninety and a hundred and twenty notches of zoom in, with no image. *)
Definition zoomed_in_90 : @MainWindow plain_toolkit :=
  run (replicate 90 (Wheel origin 120)) MainWindow_init.

Definition zoomed_in_120 : @MainWindow plain_toolkit :=
  run (replicate 120 (Wheel origin 120)) MainWindow_init.

(** The sample image is loaded, the view is zoomed out by a hundred and
    twenty notches and the erase tool is selected. *)
Definition zoomed_out_120_erasing : @MainWindow plain_toolkit :=
  run (OpenImage "map.png" sample_pixmap :: replicate 120 (Wheel origin (-120))
         ++ [EraseClicked]) MainWindow_init.

(** * Properties *)

Section Properties.
Context {tk : Toolkit}.

(** ** Python numbers and colours, on examples *)

Example int_of_float_truncates : Py.int_of_float 1.5%float = inr 1.
Proof. vm_compute. reflexivity. Qed.

Example int_of_float_truncates_toward_zero : Py.int_of_float (-1.5)%float = inr (-1).
Proof. vm_compute. reflexivity. Qed.

Example int_of_float_below_one : Py.int_of_float 0.5%float = inr 0.
Proof. vm_compute. reflexivity. Qed.

Example int_of_float_infinity : Py.int_of_float infinity = inl Py.OverflowError.
Proof. vm_compute. reflexivity. Qed.

Example int_of_float_nan : Py.int_of_float nan = inl Py.ValueError.
Proof. vm_compute. reflexivity. Qed.

Example mul_int_float_exact : Py.mul_int_float 20 0.5%float = inr 10%float.
Proof. vm_compute. reflexivity. Qed.

Example opaque_black_word : opaque_black = 0xFF000000.
Proof. reflexivity. Qed.

Example transparent_word : Qt_transparent = 0 /\ qAlpha Qt_transparent = 0.
Proof. split; reflexivity. Qed.

(** ** Running event sequences *)

Lemma run_cons (ev : Event) (evs : list Event) (w : MainWindow) :
  run (ev :: evs) w = run evs (step w ev).
Proof. reflexivity. Qed.

(** A property that holds at the start and that every event keeps holds
    after every event sequence. *)
Lemma run_invariant (P : MainWindow -> Prop) :
  (forall w ev, P w -> P (step w ev)) ->
  forall evs w, P w -> P (run evs w).
Proof.
  intros Hstep evs. induction evs as [|ev evs IH]; intros w Hw.
  - exact Hw.
  - rewrite run_cons. apply IH, Hstep, Hw.
Qed.

(** ** The cursor update touches the cursor only *)

Lemma update_cursor_cursor_only (v : MyGraphicsView) :
  exists c, state_of (update_cursor v) = setCursor c v.
Proof.
  unfold update_cursor.
  destruct (negb (is_brush (tool v))).
  - eexists. reflexivity.
  - destruct (screen_radius (brush_radius v) (transform v)) as [e|sr].
    + exists (cursor v). destruct v. reflexivity.
    + cbv zeta. destruct (negb (fits_c_int _)).
      * exists (cursor v). destruct v. reflexivity.
      * destruct (image_allocates _ _); eexists; reflexivity.
Qed.

(** ** What the input handlers leave alone

    The handlers of the view (wheel, mouse) and the timer reach the rest of
    the program only through the callbacks, the brush and the base class.
    A property of the main window that survives each of those steps
    survives the handlers. *)

Lemma preserves_seq (P : MainWindow -> Prop) (o : outcome MainWindow)
  (g : MainWindow -> outcome MainWindow) :
  P (state_of o) -> preserves P g -> P (state_of (o >>> g)).
Proof. intros Ho Hg. destruct o as [w1|e w1]; cbn in *; auto. Qed.

Lemma tool_update_cursor (v : MyGraphicsView) : tool (state_of (update_cursor v)) = tool v.
Proof. destruct (update_cursor_cursor_only v) as [c ->]. reflexivity. Qed.

Lemma tool_call_if_set (cb : option Callback) (w : MainWindow) :
  tool (view (state_of (call_if_set cb w))) = tool (view w).
Proof.
  destruct cb as [[| |]|]; cbn; try reflexivity.
  - unfold on_interaction_start. destruct (negb (interaction_timer w)); reflexivity.
  - unfold on_interaction_end. destruct (interaction_timer w); reflexivity.
  - unfold update_mirror. cbn.
    destruct (is_brush (tool (view w))); [|reflexivity].
    unfold lift. cbn.
    pose proof (tool_update_cursor (view w)) as Ht.
    destruct (update_cursor (view w)); cbn in *; exact Ht.
Qed.

Section Frame.

Variable P : MainWindow -> Prop.

Hypothesis P_timer : forall b w, P w -> P (with_interaction_timer b w).
Hypothesis P_mirror :
  forall pm w, P w -> P (with_mirror_window (set_mirror_pixmap pm (mirror_window w)) w).
Hypothesis P_preview : forall p w, P w -> P (with_preview_view p w).
Hypothesis P_update_cursor :
  forall w, P w -> P (state_of (lift with_view (update_cursor (view w)) w)).
Hypothesis P_scroll : forall sc w, P w -> P (with_view (with_scroll sc (view w)) w).
Hypothesis P_zoom :
  forall t w, tool (view w) = ToolNone -> P w -> P (with_view (with_transform t (view w)) w).
Hypothesis P_brush : forall pos, preserves P (apply_brush pos).

Lemma preserves_on_interaction_start : preserves P on_interaction_start.
Proof.
  intros w Hw. unfold on_interaction_start.
  destruct (negb (interaction_timer w)); cbn; auto.
Qed.

Lemma preserves_on_interaction_end : preserves P on_interaction_end.
Proof.
  intros w Hw. unfold on_interaction_end.
  destruct (interaction_timer w); cbn; auto.
Qed.

Lemma preserves_sync_preview_transform (w : MainWindow) :
  P w -> P (sync_preview_transform w).
Proof. intros Hw. unfold sync_preview_transform. apply P_preview, Hw. Qed.

Lemma preserves_update_mirror : preserves P update_mirror.
Proof.
  intros w Hw. unfold update_mirror.
  set (w1 := sync_preview_transform _).
  assert (H1 : P w1) by (apply preserves_sync_preview_transform, P_mirror, Hw).
  destruct (is_brush (tool (view w1))).
  - apply P_update_cursor, H1.
  - exact H1.
Qed.

Lemma preserves_call (cb : Callback) : preserves P (call cb).
Proof.
  destruct cb; cbn.
  - apply preserves_on_interaction_start.
  - apply preserves_on_interaction_end.
  - apply preserves_update_mirror.
Qed.

Lemma preserves_call_if_set (cb : option Callback) : preserves P (call_if_set cb).
Proof.
  intros w Hw. destruct cb as [c|]; cbn.
  - apply preserves_call, Hw.
  - exact Hw.
Qed.

Lemma preserves_super_mouse (base : DragMode -> QTransform -> Scroll -> Scroll) :
  preserves P (super_mouse base).
Proof. intros w Hw. cbn. apply P_scroll, Hw. Qed.

Lemma preserves_setTransform (t : QTransform) (w : MainWindow) :
  tool (view w) = ToolNone -> P w -> P (with_view (setTransform t (view w)) w).
Proof.
  intros Ht Hw. unfold setTransform.
  pose proof (P_scroll (transformChanged (transform (view w)) t (scroll (view w)))
                (with_view (with_transform t (view w)) w) (P_zoom t w Ht Hw)) as H.
  exact H.
Qed.

Lemma preserves_wheelEvent (pos : QPoint) (dy : Z) : preserves P (wheelEvent pos dy).
Proof.
  intros w Hw. unfold wheelEvent.
  destruct (tool (view w)) eqn:Ht; try exact Hw.
  pose proof (preserves_call_if_set (interaction_start_callback (view w)) w Hw) as H1.
  pose proof (tool_call_if_set (interaction_start_callback (view w)) w) as Ht1.
  unfold and_then.
  destruct (call_if_set (interaction_start_callback (view w)) w) as [w1|e w1];
    cbn in H1, Ht1 |- *; [|exact H1].
  rewrite Ht in Ht1.
  unfold view_translate, view_scale.
  set (v1 := setTransform _ (view w1)).
  set (v2 := setTransform _ v1).
  assert (Hv1 : P (with_view v1 w1)) by (apply preserves_setTransform; assumption).
  assert (Hv2 : P (with_view v2 w1)).
  { apply (preserves_setTransform _ (with_view v1 w1)); [exact Ht1 | exact Hv1]. }
  apply (preserves_call_if_set (update_callback v2) (with_view v2 w1) Hv2).
Qed.

(** The steps a mouse handler is made of. *)
Ltac frame_steps :=
  repeat first
    [ assumption
    | apply preserves_super_mouse
    | apply preserves_call_if_set
    | apply P_brush
    | apply preserves_seq
    | let w1 := fresh "w" in let H1 := fresh "Hw" in intros w1 H1 ].

Lemma preserves_mousePressEvent (button : MouseButton) (pos : QPoint) :
  preserves P (mousePressEvent button pos).
Proof.
  intros w Hw. unfold mousePressEvent.
  destruct button; [destruct (is_brush (tool (view w)))|..]; cbn [state_of]; frame_steps.
Qed.

Lemma preserves_mouseReleaseEvent (button : MouseButton) (pos : QPoint) :
  preserves P (mouseReleaseEvent button pos).
Proof.
  intros w Hw. unfold mouseReleaseEvent.
  destruct button; [destruct (is_brush (tool (view w)))|..]; cbn [state_of]; frame_steps.
Qed.

Lemma preserves_mouseMoveEvent (left_down : bool) (pos : QPoint) :
  preserves P (mouseMoveEvent left_down pos).
Proof.
  intros w Hw. unfold mouseMoveEvent.
  destruct (is_brush (tool (view w)) && left_down); cbn [state_of]; frame_steps.
Qed.

Lemma preserves_view_input (ev : Event) (w : MainWindow) :
  is_view_input ev = true -> P w -> P (step w ev).
Proof.
  intros Hev Hw. unfold step. destruct ev; try discriminate; cbn [dispatch].
  - apply preserves_wheelEvent, Hw.
  - apply preserves_mousePressEvent, Hw.
  - apply preserves_mouseReleaseEvent, Hw.
  - apply preserves_mouseMoveEvent, Hw.
  - destruct (interaction_timer w); [apply preserves_update_mirror|]; exact Hw.
  - cbn. apply preserves_sync_preview_transform, P_scroll, Hw.
Qed.

End Frame.

(** ** Footprints of the view's methods *)

Lemma state_of_lift {A B : Type} (put : A -> B -> B) (o : outcome A) (w : B) :
  state_of (lift put o w) = put (state_of o) w.
Proof. destruct o; reflexivity. Qed.

Lemma setCursor_same (v : MyGraphicsView) : setCursor (cursor v) v = v.
Proof. destruct v. reflexivity. Qed.

Lemma set_tool_footprint (t : Tool) (v : MyGraphicsView) :
  exists c,
    state_of (set_tool t v)
    = setCursor c
        (setDragMode (match t with ToolNone => ScrollHandDrag | _ => NoDrag end)
           (with_tool t v)).
Proof.
  unfold set_tool.
  destruct t; cbn [tool with_tool].
  - eexists. reflexivity.
  - apply update_cursor_cursor_only.
  - apply update_cursor_cursor_only.
Qed.

Lemma set_brush_radius_footprint (r : Z) (v : MyGraphicsView) :
  exists c, state_of (set_brush_radius r v) = setCursor c (with_brush_radius r v).
Proof.
  unfold set_brush_radius.
  destruct (is_brush (tool (with_brush_radius r v))).
  - apply update_cursor_cursor_only.
  - exists (cursor v). destruct v. reflexivity.
Qed.

Lemma apply_brush_footprint (pos : QPoint) (w : MainWindow) :
  state_of (apply_brush pos w) = w
  \/ exists img it,
      state_of (apply_brush pos w)
      = with_items it (with_view (with_overlay_image img (view w)) w).
Proof.
  unfold apply_brush.
  destruct (overlay_image (view w)) as [img|]; [|left; reflexivity].
  destruct (overlay_item (view w)) as [item|]; [|left; reflexivity].
  destruct (isNull img); [left; reflexivity|].
  destruct (brush_point (view w) pos) as [e|[x y]]; [left; reflexivity|].
  destruct (negb _); [left; reflexivity|].
  right. eexists _, _. reflexivity.
Qed.

(** Discharges the hypotheses of [Frame] for a property that reads only
    attributes the input handlers never write. *)
Ltac frame_by_projection :=
  first
    [ let w := fresh "w" in
      let Hw := fresh "Hw" in
      let c := fresh "c" in
      intros w Hw; rewrite state_of_lift;
      destruct (update_cursor_cursor_only (view w)) as [c ->]; exact Hw
    | let pos := fresh "pos" in
      let w := fresh "w" in
      let Hw := fresh "Hw" in
      let img := fresh "img" in
      let it := fresh "it" in
      intros pos w Hw;
      destruct (apply_brush_footprint pos w) as [-> | (img & it & ->)]; exact Hw
    | intros; assumption ].

(** Rewrites what is left of a tool or radius change into its footprint. *)
Ltac footprints :=
  repeat rewrite state_of_lift;
  repeat match goal with
    | |- context [state_of (set_tool ?t ?v)] =>
        let c := fresh "c" in destruct (set_tool_footprint t v) as [c ->]
    | |- context [state_of (set_brush_radius ?r ?v)] =>
        let c := fresh "c" in destruct (set_brush_radius_footprint r v) as [c ->]
    end.

(** ** The tool buttons *)

Lemma init_buttons_consistent : buttons_consistent MainWindow_init.
Proof. split; reflexivity. Qed.

Lemma tool_on_erase_clicked (checked : bool) (w : MainWindow) :
  let w' := state_of (on_erase_clicked checked w) in
  erase_btn w' = erase_btn w
  /\ paint_btn w' = (if checked then false else paint_btn w)
  /\ tool (view w')
     = (if checked then Erase else if paint_btn w then tool (view w) else ToolNone).
Proof.
  unfold on_erase_clicked.
  destruct checked; [|destruct (paint_btn w) eqn:Hp]; cbn [negb state_of];
    try rewrite state_of_lift.
  - destruct (set_tool_footprint Erase (view (paint_btn_setChecked false w))) as [c ->].
    repeat split.
  - repeat split. exact Hp.
  - destruct (set_tool_footprint ToolNone (view w)) as [c ->].
    repeat split. exact Hp.
Qed.

Lemma tool_on_paint_clicked (checked : bool) (w : MainWindow) :
  let w' := state_of (on_paint_clicked checked w) in
  paint_btn w' = paint_btn w
  /\ erase_btn w' = (if checked then false else erase_btn w)
  /\ tool (view w')
     = (if checked then Paint else if erase_btn w then tool (view w) else ToolNone).
Proof.
  unfold on_paint_clicked.
  destruct checked; [|destruct (erase_btn w) eqn:Hp]; cbn [negb state_of];
    try rewrite state_of_lift.
  - destruct (set_tool_footprint Paint (view (erase_btn_setChecked false w))) as [c ->].
    repeat split.
  - repeat split. exact Hp.
  - destruct (set_tool_footprint ToolNone (view w)) as [c ->].
    repeat split. exact Hp.
Qed.

Lemma returned_state_of {S : Type} (o : outcome S) :
  returned o = true -> o = Returned (state_of o).
Proof. destruct o; [reflexivity | discriminate]. Qed.

(** A load into the interactive tab returns, and what it leaves behind is
    computed from the pixmap and the state before. *)
Lemma load_interactive_image_returns (pm : QPixmap) (w : MainWindow) :
  load_interactive_image pm w = Returned (state_of (load_interactive_image pm w)).
Proof. apply returned_state_of. reflexivity. Qed.

Lemma load_interactive_image_tool (pm : QPixmap) (w : MainWindow) :
  let w' := state_of (load_interactive_image pm w) in
  erase_btn w' = false /\ paint_btn w' = false /\ tool (view w') = ToolNone
  /\ cursor (view w') = ArrowCursor.
Proof. repeat split. Qed.

Lemma load_interactive_image_brush (pm : QPixmap) (w : MainWindow) :
  let w' := state_of (load_interactive_image pm w) in
  brush_radius (view w') = brush_radius (view w) /\ brush_slider w' = brush_slider w.
Proof. repeat split. Qed.

Lemma load_interactive_image_overlay (pm : QPixmap) (w : MainWindow) :
  let w' := state_of (load_interactive_image pm w) in
  let overlay_img := fill (qRgba 0 0 0 255) (QImage_new (width pm) (height pm)) in
  overlay_image (view w') = Some overlay_img
  /\ overlay_item (view w') = Some OverlayItem
  /\ item_pixmap OverlayItem (items w') = overlay_img
  /\ item_pixmap PixmapItem (items w') = pm.
Proof. repeat split. Qed.

Lemma step_buttons_consistent (w : MainWindow) (ev : Event) :
  buttons_consistent w -> buttons_consistent (step w ev).
Proof.
  intros Hw.
  destruct (is_view_input ev) eqn:Hev.
  { apply (preserves_view_input buttons_consistent); try frame_by_projection; assumption. }
  destruct Hw as [Hb Ht].
  unfold buttons_consistent, step.
  destruct ev; try discriminate; cbn [dispatch].
  - (* EraseClicked *)
    destruct (tool_on_erase_clicked (negb (erase_btn w))
                (erase_btn_setChecked (negb (erase_btn w)) w)) as (He & Hp & Htool).
    cbn in He, Hp, Htool. rewrite He, Hp, Htool.
    destruct (erase_btn w), (paint_btn w); cbn in *; try discriminate; auto.
  - (* PaintClicked *)
    destruct (tool_on_paint_clicked (negb (paint_btn w))
                (paint_btn_setChecked (negb (paint_btn w)) w)) as (Hp & He & Htool).
    cbn in He, Hp, Htool. rewrite He, Hp, Htool.
    destruct (erase_btn w), (paint_btn w); cbn in *; try discriminate; auto.
  - (* SliderMoved *)
    destruct (_ =? _); [split; assumption|].
    unfold on_brush_slider_changed. rewrite state_of_lift.
    destruct (set_brush_radius_footprint (Z.max 1 (Z.min 200 val))
                (view (with_brush_slider (Z.max 1 (Z.min 200 val)) w))) as [c ->].
    split; assumption.
  - (* OpenImage *)
    unfold on_open_image.
    destruct (String.eqb path ""); [split; assumption|].
    destruct (isNull pm); [split; assumption|].
    destruct (tabs_currentIndex w =? 0).
    + destruct (load_interactive_image_tool pm w) as (He & Hp & Htool & _).
      rewrite He, Hp, Htool. split; reflexivity.
    + split; assumption.
  - (* TabSelected *)
    destruct (_ || _); split; assumption.
  - (* MainResized *)
    unfold MainWindow_resizeEvent. cbn. destruct (_ =? _); split; assumption.
  - split; assumption.
  - unfold MirrorWindow_close. cbn. destruct (MirrorWindow_closeEvent w); split; assumption.
  - unfold StaticMirrorWindow_close. cbn.
    destruct (StaticMirrorWindow_closeEvent w); split; assumption.
  - unfold MainWindow_closeEvent, StaticMirrorWindow_close, MirrorWindow_close. cbn.
    split; assumption.
Qed.

Lemma run_buttons_consistent (evs : list Event) :
  buttons_consistent (run evs MainWindow_init).
Proof.
  apply run_invariant.
  - apply step_buttons_consistent.
  - apply init_buttons_consistent.
Qed.

(** C4.  After every event sequence the Erase and Paint buttons are not
    both checked and the tool is the one the buttons stand for; a click
    that checks Erase selects the erase tool and leaves Paint unchecked, a
    click that checks Paint selects the paint tool and leaves Erase
    unchecked, and a click that unchecks either one (the other is then
    unchecked) sets the tool to none.  The handlers do the same from any
    state: checking sets the tool and unchecks the other button,
    unchecking sets the tool to none when the other button is unchecked. *)
Theorem tool_buttons_exclusive (evs : list Event) :
  let w := run evs MainWindow_init in
  erase_btn w && paint_btn w = false
  /\ tool (view w) = tool_of_buttons (erase_btn w) (paint_btn w)
  /\ (let w' := step w EraseClicked in
      if erase_btn w
      then erase_btn w' = false /\ paint_btn w' = false /\ tool (view w') = ToolNone
      else erase_btn w' = true /\ paint_btn w' = false /\ tool (view w') = Erase)
  /\ (let w' := step w PaintClicked in
      if paint_btn w
      then paint_btn w' = false /\ erase_btn w' = false /\ tool (view w') = ToolNone
      else paint_btn w' = true /\ erase_btn w' = false /\ tool (view w') = Paint)
  /\ (forall w0 : MainWindow,
        let w1 := state_of (on_erase_clicked true w0) in
        let w2 := state_of (on_paint_clicked true w0) in
        (tool (view w1) = Erase /\ paint_btn w1 = false)
        /\ (tool (view w2) = Paint /\ erase_btn w2 = false)
        /\ tool (view (state_of (on_erase_clicked false w0)))
           = (if paint_btn w0 then tool (view w0) else ToolNone)
        /\ tool (view (state_of (on_paint_clicked false w0)))
           = (if erase_btn w0 then tool (view w0) else ToolNone)).
Proof.
  intros w.
  destruct (run_buttons_consistent evs) as [Hb Ht]. fold w in Hb, Ht.
  split; [exact Hb|]. split; [exact Ht|].
  split; [|split].
  - unfold step. cbn [dispatch].
    destruct (tool_on_erase_clicked (negb (erase_btn w))
                (erase_btn_setChecked (negb (erase_btn w)) w)) as (He & Hp & Htool).
    cbn in He, Hp, Htool. rewrite He, Hp, Htool.
    destruct (erase_btn w), (paint_btn w); cbn in *; try discriminate; auto.
  - unfold step. cbn [dispatch].
    destruct (tool_on_paint_clicked (negb (paint_btn w))
                (paint_btn_setChecked (negb (paint_btn w)) w)) as (Hp & He & Htool).
    cbn in He, Hp, Htool. rewrite He, Hp, Htool.
    destruct (erase_btn w), (paint_btn w); cbn in *; try discriminate; auto.
  - intros w0.
    destruct (tool_on_erase_clicked true w0) as (_ & Hp1 & Ht1).
    destruct (tool_on_paint_clicked true w0) as (_ & He2 & Ht2).
    destruct (tool_on_erase_clicked false w0) as (_ & _ & Ht3).
    destruct (tool_on_paint_clicked false w0) as (_ & _ & Ht4).
    cbn in *. auto.
Qed.

(** ** Opening an image *)

Lemma in_bounds_spec (img : QImage) (x y : Z) :
  in_bounds img x y = true <-> 0 <= x < width img /\ 0 <= y < height img.
Proof. unfold in_bounds. rewrite !andb_true_iff. lia. Qed.

Lemma in_bounds_index (wd ht x y : Z) :
  0 <= x < wd -> 0 <= y < ht -> (Z.to_nat (y * wd + x) < Z.to_nat (wd * ht))%nat.
Proof. intros Hx Hy. apply Z2Nat.inj_lt; nia. Qed.

Lemma pixel_in_bounds (img : QImage) (x y : Z) :
  0 <= x < width img -> 0 <= y < height img ->
  pixel img x y = pixels img !! Z.to_nat (y * width img + x).
Proof.
  intros Hx Hy. unfold pixel.
  assert (Hin : in_bounds img x y = true) by (apply in_bounds_spec; lia).
  rewrite Hin. reflexivity.
Qed.

(** Every pixel of a freshly allocated and filled image has the fill
    colour. *)
Lemma pixel_fill_new (c : QRgb) (wd ht x y : Z) :
  0 <= x < wd -> 0 <= y < ht -> pixel (fill c (QImage_new wd ht)) x y = Some c.
Proof.
  intros Hx Hy. unfold QImage_new.
  assert (Hpos : (0 <? wd) && (0 <? ht) = true).
  { apply andb_true_iff. split; apply Z.ltb_lt; lia. }
  rewrite Hpos. rewrite pixel_in_bounds by (cbn; lia).
  cbn [fill width height pixels].
  rewrite list_lookup_fmap, lookup_replicate_2; [reflexivity|].
  apply in_bounds_index; assumption.
Qed.

Lemma size_fill_new (c : QRgb) (wd ht : Z) :
  0 < wd -> 0 < ht ->
  width (fill c (QImage_new wd ht)) = wd
  /\ height (fill c (QImage_new wd ht)) = ht
  /\ length (pixels (fill c (QImage_new wd ht))) = Z.to_nat (wd * ht).
Proof.
  intros Hw Hh. unfold QImage_new.
  assert (Hpos : (0 <? wd) && (0 <? ht) = true).
  { apply andb_true_iff. split; apply Z.ltb_lt; lia. }
  rewrite Hpos. cbn. rewrite length_fmap, length_replicate. auto.
Qed.

Lemma isNull_false (img : QImage) : isNull img = false <-> 0 < width img /\ 0 < height img.
Proof. unfold isNull. rewrite orb_false_iff, !Z.leb_gt. reflexivity. Qed.

Lemma opaque_black_alpha :
  qAlpha opaque_black = 255 /\ qRed opaque_black = 0
  /\ qGreen opaque_black = 0 /\ qBlue opaque_black = 0.
Proof. repeat split. Qed.

(** C3.  When the dialog returns a path, the file decodes and the
    interactive tab is selected, opening the image returns with an overlay
    bitmap of exactly the width and height of the new base image, every
    pixel of it opaque black (alpha 255), shown by the overlay item, and
    with the tool reset to none. *)
Theorem interactive_load_resets_overlay (w : MainWindow) (path : string) (pm : QPixmap) :
  String.eqb path "" = false ->
  isNull pm = false ->
  tabs_currentIndex w = 0 ->
  exists (w' : MainWindow) (img : QImage),
    on_open_image path pm w = Returned w'
    /\ item_pixmap PixmapItem (items w') = pm
    /\ overlay_image (view w') = Some img
    /\ item_pixmap OverlayItem (items w') = img
    /\ width img = width pm
    /\ height img = height pm
    /\ length (pixels img) = Z.to_nat (width pm * height pm)
    /\ (forall x y, 0 <= x < width pm -> 0 <= y < height pm ->
                    pixel img x y = Some opaque_black)
    /\ qAlpha opaque_black = 255
    /\ tool (view w') = ToolNone
    /\ erase_btn w' = false /\ paint_btn w' = false.
Proof.
  intros Hpath Hnull Htab.
  exists (state_of (load_interactive_image pm w)),
         (fill (qRgba 0 0 0 255) (QImage_new (width pm) (height pm))).
  apply isNull_false in Hnull. destruct Hnull as [Hw Hh].
  destruct (size_fill_new (qRgba 0 0 0 255) (width pm) (height pm) Hw Hh) as (Ew & Eh & El).
  destruct (load_interactive_image_overlay pm w) as (Ho & _ & Hi & Hp).
  destruct (load_interactive_image_tool pm w) as (He & Hpb & Ht & _).
  split.
  { unfold on_open_image. rewrite Hpath.
    assert (Hn : isNull pm = false) by (apply isNull_false; auto).
    rewrite Hn, Htab. cbn [Z.eqb]. apply load_interactive_image_returns. }
  repeat split; try assumption.
  intros x y Hx Hy. apply pixel_fill_new; assumption.
Qed.

(** C8.  When the dialog is cancelled (empty path) or the file does not
    decode (null pixmap), opening an image returns without raising and the
    whole state of the program is what it was. *)
Theorem open_image_aborts_silently (w : MainWindow) (path : string) (pm : QPixmap) :
  String.eqb path "" = true \/ isNull pm = true ->
  on_open_image path pm w = Returned w
  /\ step w (OpenImage path pm) = w.
Proof.
  intros H. unfold step. cbn [dispatch]. unfold on_open_image.
  destruct (String.eqb path ""); [split; reflexivity|].
  destruct H as [H|H]; [discriminate|]. rewrite H. split; reflexivity.
Qed.

Lemma load_static_image_view (pm : QPixmap) (w : MainWindow) :
  view (state_of (load_static_image pm w)) = view w
  /\ brush_slider (state_of (load_static_image pm w)) = brush_slider w.
Proof. split; reflexivity. Qed.

(** C7, as the code has it.  The brush radius (and the slider) is the
    same after every open-image action as before it.  The tool and the
    two tool buttons are the same after a load into the static tab and
    after an aborted load; a load into the interactive tab resets the
    tool to none and unchecks both tool buttons. *)
Theorem open_image_keeps_brush_radius (w : MainWindow) (path : string) (pm : QPixmap) :
  let w' := step w (OpenImage path pm) in
  brush_radius (view w') = brush_radius (view w)
  /\ brush_slider w' = brush_slider w
  /\ tool (view w') = (if loads_interactive path pm w then ToolNone else tool (view w))
  /\ erase_btn w' = (if loads_interactive path pm w then false else erase_btn w)
  /\ paint_btn w' = (if loads_interactive path pm w then false else paint_btn w).
Proof.
  unfold step, loads_interactive. cbn [dispatch]. unfold on_open_image.
  destruct (String.eqb path ""); [repeat split|].
  destruct (isNull pm); [repeat split|].
  destruct (tabs_currentIndex w =? 0); cbn [negb andb].
  - destruct (load_interactive_image_brush pm w) as (Hr & Hs).
    destruct (load_interactive_image_tool pm w) as (He & Hp & Ht & _).
    auto 6.
  - destruct (load_static_image_view pm w) as (Hv & Hs).
    rewrite Hv. repeat split.
Qed.

(** C1 at the failing input.  One scroll-wheel event in the initial state
    (no tool selected) leaves the mirror-refresh timer active although no
    interaction was ever opened. *)
Theorem wheel_leaves_timer_running (pos : QPoint) (angleDelta_y : Z) :
  interaction_timer (run [Wheel pos angleDelta_y] MainWindow_init) = true
  /\ interaction_open [Wheel pos angleDelta_y] = false.
Proof. split; reflexivity. Qed.

(** ** The mirror windows *)








(** ** The brush before any image is loaded *)

Lemma apply_brush_no_overlay (pos : QPoint) (w : MainWindow) :
  overlay_image (view w) = None \/ overlay_item (view w) = None ->
  apply_brush pos w = Returned w.
Proof.
  intros [H|H]; unfold apply_brush; rewrite H; [reflexivity|].
  destruct (overlay_image (view w)); reflexivity.
Qed.

Lemma step_no_overlay (w : MainWindow) (ev : Event) :
  match ev with
  | OpenImage path pm => loads_interactive path pm w = false
  | _ => True
  end ->
  overlay_image (view w) = None ->
  overlay_image (view (step w ev)) = None.
Proof.
  intros Hev Hw.
  destruct (is_view_input ev) eqn:Hin.
  { apply (preserves_view_input (fun w => overlay_image (view w) = None));
      try frame_by_projection; try assumption.
    intros pos w0 Hw0. rewrite apply_brush_no_overlay by (left; exact Hw0). exact Hw0. }
  unfold step.
  destruct ev; try discriminate; cbn [dispatch].
  - unfold on_erase_clicked.
    destruct (negb (erase_btn w)); [|destruct (negb _)]; cbn [state_of];
      footprints; exact Hw.
  - unfold on_paint_clicked.
    destruct (negb (paint_btn w)); [|destruct (negb _)]; cbn [state_of];
      footprints; exact Hw.
  - destruct (_ =? _); [exact Hw|].
    unfold on_brush_slider_changed. footprints. exact Hw.
  - unfold on_open_image. unfold loads_interactive in Hev.
    destruct (String.eqb path ""); [exact Hw|].
    destruct (isNull pm); [exact Hw|].
    destruct (tabs_currentIndex w =? 0); [discriminate|].
    exact Hw.
  - destruct (_ || _); exact Hw.
  - unfold MainWindow_resizeEvent. cbn. destruct (_ =? _); exact Hw.
  - exact Hw.
  - unfold MirrorWindow_close. destruct (MirrorWindow_closeEvent w); exact Hw.
  - unfold StaticMirrorWindow_close. destruct (StaticMirrorWindow_closeEvent w); exact Hw.
  - exact Hw.
Qed.

Lemma run_no_overlay (evs : list Event) (w : MainWindow) :
  no_interactive_load evs w = true ->
  overlay_image (view w) = None ->
  overlay_image (view (run evs w)) = None.
Proof.
  revert w. induction evs as [|ev evs IH]; intros w Hevs Hw; [exact Hw|].
  rewrite run_cons. cbn [no_interactive_load] in Hevs.
  apply andb_true_iff in Hevs. destruct Hevs as [Hev Hevs].
  apply IH; [exact Hevs|].
  apply step_no_overlay; [|exact Hw].
  destruct ev; try exact I. apply negb_true_iff. exact Hev.
Qed.

(** C10.  As long as no image has been loaded into the interactive tab,
    the view has no overlay bitmap, and applying the brush at any position
    returns without raising and leaves the whole state as it was; the same
    holds in any state in which the overlay image or the overlay item is
    not set. *)
Theorem brush_before_load_is_noop (evs : list Event) (pos : QPoint) :
  no_interactive_load evs MainWindow_init = true ->
  let w := run evs MainWindow_init in
  overlay_image (view w) = None
  /\ apply_brush pos w = Returned w
  /\ (forall w0 : MainWindow,
        overlay_image (view w0) = None \/ overlay_item (view w0) = None ->
        apply_brush pos w0 = Returned w0).
Proof.
  intros Hevs w.
  assert (Hw : overlay_image (view w) = None) by (apply run_no_overlay; [exact Hevs|reflexivity]).
  split; [exact Hw|]. split.
  - apply apply_brush_no_overlay. left. exact Hw.
  - intros w0. apply apply_brush_no_overlay.
Qed.

(** ** Brush strokes *)

Lemma well_formed_fill_new (c : QRgb) (wd ht : Z) : well_formed (fill c (QImage_new wd ht)).
Proof.
  unfold well_formed, QImage_new.
  destruct ((0 <? wd) && (0 <? ht)); cbn.
  - rewrite length_fmap, length_replicate. reflexivity.
  - reflexivity.
Qed.

Lemma well_formed_drawEllipse (p : QPainter) (x y wd ht : Z) (img : QImage) :
  well_formed img -> well_formed (drawEllipse p x y wd ht img).
Proof. unfold well_formed. cbn. rewrite length_imap. auto. Qed.

Lemma pixel_is_Some (img : QImage) (px py : Z) :
  well_formed img -> 0 <= px < width img -> 0 <= py < height img ->
  is_Some (pixel img px py).
Proof.
  intros Hwf Hx Hy. rewrite pixel_in_bounds by assumption.
  apply lookup_lt_is_Some. rewrite Hwf. apply in_bounds_index; assumption.
Qed.

Lemma pixel_drawEllipse (p : QPainter) (x y wd ht : Z) (img : QImage) (px py : Z) :
  0 <= px < width img -> 0 <= py < height img ->
  pixel (drawEllipse p x y wd ht img) px py
  = draw_pixel p {| rect_x := x; rect_y := y; rect_width := wd; rect_height := ht |} px py
      <$> pixel img px py.
Proof.
  intros Hx Hy.
  rewrite (pixel_in_bounds (drawEllipse p x y wd ht img)) by (cbn; assumption).
  rewrite pixel_in_bounds by assumption.
  cbn [drawEllipse width height pixels].
  rewrite list_lookup_imap.
  rewrite Z2Nat.id by nia.
  replace ((py * width img + px) mod width img) with px.
  2:{ rewrite Z.add_comm, Z_mod_plus_full, Z.mod_small; lia. }
  replace ((py * width img + px) / width img) with py.
  2:{ rewrite Z.add_comm, Z_div_plus_full by lia. rewrite Z.div_small; lia. }
  reflexivity.
Qed.

Lemma brush_point_inputs (v v' : MyGraphicsView) (pos : QPoint) :
  transform v = transform v' -> scroll v = scroll v' ->
  brush_point v pos = brush_point v' pos.
Proof. intros Ht Hs. unfold brush_point. rewrite Ht, Hs. reflexivity. Qed.

(** One erase stroke followed by one paint stroke over the same ellipse,
    pixel by pixel. *)
Lemma erase_paint_pixel (r : QRect) (px py : Z) (d : QRgb) :
  draw_pixel (brush_painter Paint) r px py (draw_pixel (brush_painter Erase) r px py d)
  = if ellipse_fill r px py then opaque_black else d.
Proof. unfold draw_pixel. cbn. destruct (ellipse_fill r px py); reflexivity. Qed.

(** A click that checks Paint changes the tool and nothing a stroke
    reads besides. *)
Lemma paint_click_keeps_stroke_inputs (w : MainWindow) :
  paint_btn w = false ->
  tool (view (step w PaintClicked)) = Paint
  /\ same_stroke_inputs w (step w PaintClicked).
Proof.
  intros Hp. unfold step, same_stroke_inputs. cbn [dispatch]. rewrite Hp. cbn [negb].
  unfold on_paint_clicked. footprints. repeat split.
Qed.

(** C2.  An erase stroke that is applied to an overlay bitmap, followed
    by a paint stroke at the same view position with the same brush
    radius and the same view matrix and scroll position, returns; the
    bitmap keeps its size; every pixel of the bitmap that the brush
    ellipse covers is opaque black (alpha 255) afterwards, and every other
    pixel is what it was before the erase stroke.  Pixels of the ellipse
    outside the bitmap do not exist: the strokes are clipped. *)
Theorem erase_then_paint_restores_opacity
  (w w1 w1' : MainWindow) (pos : QPoint) (img : QImage) (item : ItemRef) :
  overlay_image (view w) = Some img ->
  overlay_item (view w) = Some item ->
  well_formed img ->
  tool (view w) = Erase ->
  apply_brush pos w = Returned w1 ->
  tool (view w1') = Paint ->
  same_stroke_inputs w1 w1' ->
  exists (w2 : MainWindow) (img2 : QImage),
    apply_brush pos w1' = Returned w2
    /\ overlay_image (view w2) = Some img2
    /\ width img2 = width img /\ height img2 = height img
    /\ well_formed img2
    /\ qAlpha opaque_black = 255
    /\ (isNull img = false -> item_pixmap item (items w2) = img2)
    /\ (forall px py, 0 <= px < width img -> 0 <= py < height img ->
         exists x y,
           brush_point (view w) pos = inr (x, y)
           /\ pixel img2 px py
              = if ellipse_fill (brush_rect x y (brush_radius (view w))) px py
                then Some opaque_black
                else pixel img px py).
Proof.
  intros Himg Hitem Hwf Htool Herase Htool' (Ht & Hs & Hr & Ho & Hi).
  unfold apply_brush in Herase. rewrite Himg, Hitem in Herase.
  destruct (isNull img) eqn:Hnull.
  - (* a null image: nothing is drawn, and it has no pixel *)
    injection Herase as <-.
    exists w1', img.
    unfold apply_brush. rewrite <- Ho, <- Hi, Himg, Hitem, Hnull.
    repeat split; try assumption; try discriminate.
    intros px py Hx Hy. exfalso.
    unfold isNull in Hnull. apply orb_true_iff in Hnull.
    rewrite !Z.leb_le in Hnull. lia.
  - destruct (brush_point (view w) pos) as [e|[x y]] eqn:Hpt; [discriminate|].
    destruct (negb _) eqn:Hfit in Herase; [discriminate|].
    injection Herase as <-.
    cbn in Ht, Hs, Hr, Ho, Hi.
    set (r := brush_radius (view w)) in *.
    set (img1 := drawEllipse (brush_painter (tool (view w))) (x - r) (y - r) (r * 2) (r * 2) img)
      in *.
    set (img2 := drawEllipse (brush_painter Paint) (x - r) (y - r) (r * 2) (r * 2) img1).
    assert (Hpt' : brush_point (view w1') pos = inr (x, y)).
    { rewrite <- Hpt. symmetry. apply brush_point_inputs; assumption. }
    exists (with_items (setPixmap item img2 (items w1'))
              (with_view (with_overlay_image img2 (view w1')) w1')), img2.
    split.
    { unfold apply_brush. rewrite <- Ho, <- Hi.
      assert (Hn1 : isNull img1 = false) by exact Hnull.
      rewrite Hitem, Hn1, Hpt', Htool', <- Hr. fold r. rewrite Hfit. reflexivity. }
    split; [reflexivity|].
    split; [reflexivity|]. split; [reflexivity|].
    split; [apply well_formed_drawEllipse, well_formed_drawEllipse, Hwf|].
    split; [reflexivity|].
    split; [intros _; destruct item; reflexivity|].
    intros px py Hx Hy. exists x, y. split; [reflexivity|].
    unfold img2. rewrite pixel_drawEllipse by (cbn; assumption).
    unfold img1. rewrite pixel_drawEllipse by assumption.
    rewrite Htool.
    destruct (pixel_is_Some img px py Hwf Hx Hy) as [d Hd]. rewrite Hd. cbn [fmap option_fmap option_map].
    fold (brush_rect x y r). rewrite erase_paint_pixel.
    destruct (ellipse_fill (brush_rect x y r) px py); reflexivity.
Qed.

(** ** The brush cursor *)

Lemma glyph_matches_update_cursor (v : MyGraphicsView) :
  glyph_matches (state_of (update_cursor v)).
Proof.
  assert (Hbrush : is_brush (tool v) = true ->
                   match screen_radius (brush_radius v) (transform v) with
                   | inr sr =>
                       let size := Z.max 64 (sr * 2 + 10) in
                       if fits_c_int size
                       then cursor (state_of (update_cursor v))
                            = if image_allocates size size then brush_cursor sr
                              else ArrowCursor
                       else True
                   | inl _ => True
                   end).
  { intros Hb. unfold update_cursor. rewrite Hb. cbn [negb].
    destruct (screen_radius (brush_radius v) (transform v)) as [e|sr]; [exact I|].
    cbv zeta. destruct (fits_c_int _); cbn [negb state_of]; [|exact I].
    destruct (image_allocates _ _); reflexivity. }
  unfold glyph_matches.
  destruct (update_cursor_cursor_only v) as [c Hc].
  rewrite Hc in Hbrush |- *. cbn [tool brush_radius transform setCursor cursor] in *.
  destruct (tool v) eqn:Ht.
  - unfold update_cursor in Hc. rewrite Ht in Hc. cbn in Hc.
    apply (f_equal cursor) in Hc. cbn in Hc. symmetry. exact Hc.
  - apply Hbrush. reflexivity.
  - apply Hbrush. reflexivity.
Qed.

Lemma glyph_matches_set_tool (t : Tool) (v : MyGraphicsView) :
  glyph_matches (state_of (set_tool t v)).
Proof.
  unfold set_tool. destruct t; cbn [tool with_tool].
  - reflexivity.
  - apply glyph_matches_update_cursor.
  - apply glyph_matches_update_cursor.
Qed.

Lemma glyph_matches_set_brush_radius (r : Z) (v : MyGraphicsView) :
  glyph_matches v -> glyph_matches (state_of (set_brush_radius r v)).
Proof.
  intros Hv. unfold set_brush_radius.
  destruct (is_brush (tool (with_brush_radius r v))) eqn:Hb.
  - apply glyph_matches_update_cursor.
  - unfold glyph_matches in *. cbn in *. destruct (tool v); try discriminate. exact Hv.
Qed.

Lemma brush_radius_set_tool (t : Tool) (v : MyGraphicsView) :
  brush_radius (state_of (set_tool t v)) = brush_radius v.
Proof. destruct (set_tool_footprint t v) as [c ->]. reflexivity. Qed.

Lemma brush_radius_set_brush_radius (r : Z) (v : MyGraphicsView) :
  brush_radius (state_of (set_brush_radius r v)) = r.
Proof. destruct (set_brush_radius_footprint r v) as [c ->]. reflexivity. Qed.

Lemma step_cursor_invariant (w : MainWindow) (ev : Event) :
  cursor_invariant w -> cursor_invariant (step w ev).
Proof.
  intros Hw.
  destruct (is_view_input ev) eqn:Hin.
  { apply (preserves_view_input cursor_invariant); try frame_by_projection; try assumption.
    - intros w0 [Hg Hr]. rewrite state_of_lift. split.
      + apply glyph_matches_update_cursor.
      + destruct (update_cursor_cursor_only (view w0)) as [c ->]. exact Hr.
    - intros t w0 Ht [Hg Hr]. split; [|exact Hr].
      unfold glyph_matches in *. cbn. rewrite Ht in *. exact Hg. }
  destruct Hw as [Hg Hr].
  unfold step, cursor_invariant.
  destruct ev; try discriminate; cbn [dispatch].
  - unfold on_erase_clicked.
    destruct (negb (erase_btn w)); [|destruct (negb _)]; cbn [state_of];
      repeat rewrite state_of_lift; cbn [view with_view];
      try rewrite brush_radius_set_tool; (split; [|exact Hr]);
      first [apply glyph_matches_set_tool | exact Hg].
  - unfold on_paint_clicked.
    destruct (negb (paint_btn w)); [|destruct (negb _)]; cbn [state_of];
      repeat rewrite state_of_lift; cbn [view with_view];
      try rewrite brush_radius_set_tool; (split; [|exact Hr]);
      first [apply glyph_matches_set_tool | exact Hg].
  - destruct (_ =? _); [split; assumption|].
    unfold on_brush_slider_changed. rewrite state_of_lift. cbn [view with_view].
    rewrite brush_radius_set_brush_radius. split; [|lia].
    apply glyph_matches_set_brush_radius. exact Hg.
  - unfold on_open_image.
    destruct (String.eqb path ""); [split; assumption|].
    destruct (isNull pm); [split; assumption|].
    destruct (tabs_currentIndex w =? 0).
    + destruct (load_interactive_image_tool pm w) as (_ & _ & Ht & Hc).
      destruct (load_interactive_image_brush pm w) as (Hb & _).
      split; [|rewrite Hb; exact Hr].
      unfold glyph_matches. rewrite Ht. exact Hc.
    + split; assumption.
  - destruct (_ || _); split; assumption.
  - unfold MainWindow_resizeEvent. cbn. destruct (_ =? _); split; assumption.
  - split; assumption.
  - unfold MirrorWindow_close. destruct (MirrorWindow_closeEvent w); split; assumption.
  - unfold StaticMirrorWindow_close. destruct (StaticMirrorWindow_closeEvent w);
      split; assumption.
  - split; assumption.
Qed.

Lemma run_cursor_invariant (evs : list Event) : cursor_invariant (run evs MainWindow_init).
Proof.
  apply run_invariant.
  - apply step_cursor_invariant.
  - split; [reflexivity | cbn; lia].
Qed.

(** The integers of the slider's range convert to doubles without
    overflow. *)
Lemma float_of_int_slider (n : Z) :
  1 <= n <= 200 -> Py.float_of_int n = inr (float_of_Z n).
Proof.
  intros Hn.
  assert (Hall : forallb (fun k => match binary_normalize prec emax k 0 false with
                                   | S754_infinity _ => false
                                   | _ => true
                                   end) (seqZ 1 200) = true) by (vm_compute; reflexivity).
  rewrite forallb_forall in Hall.
  specialize (Hall n). unfold Py.float_of_int, float_of_Z.
  destruct (binary_normalize prec emax n 0 false); try reflexivity.
  exfalso. assert (false = true); [|discriminate].
  apply Hall. apply list_elem_of_In, elem_of_seqZ. lia.
Qed.

(** [int] of a finite double returns. *)
Lemma int_of_float_finite (f : float) :
  is_finite f = true -> exists n, Py.int_of_float f = inr n.
Proof.
  unfold is_finite. intros H.
  apply negb_true_iff, orb_false_iff in H. destruct H as [Hn Hi].
  unfold Py.int_of_float, Prim2SF. rewrite Hn.
  destruct (is_zero f); [eexists; reflexivity|].
  rewrite Hi.
  destruct (Z.frexp f) as [r e].
  destruct (shr_fexp prec emax _ _ _) as [shr e'].
  destruct (shr_m shr); eexists; reflexivity.
Qed.

Lemma cursor_radius_brush_cursor (sr : Z) : cursor_radius (brush_cursor sr) = Some sr.
Proof. unfold cursor_radius, brush_cursor. cbn. rewrite Z.div_mul by lia. reflexivity. Qed.

(** C6, as the code has it.  After every event sequence the brush radius
    lies between 1 and 200, and the cursor is an arrow when no brush tool
    is active.  When a brush tool is active, with zoom the average of the
    matrix's x and y scale components and [n] the product of brush radius
    and zoom truncated toward zero, the glyph has the on-screen radius
    [max 1 n], the product cut to an integer and never less than one, and
    is drawn into an image of side [max 64 (2 * radius + 10)].  When that
    side fits a C int and the image gets its buffer, the cursor is this
    glyph; when the image gets no buffer, the cursor is the arrow.  (The
    truncation exists whenever the product is finite; when it is not, or
    when the side does not fit a C int, the update raises and the cursor
    is left as it was.)  The glyph is recomputed by every change of the
    brush radius and every selection of a brush tool, and a scroll-wheel
    event cannot change the zoom while a brush tool is active: it changes
    nothing. *)
Theorem cursor_glyph_radius (evs : list Event) :
  let w := run evs MainWindow_init in
  let v := view w in
  let product := (float_of_Z (brush_radius v) * scale_factor (transform v))%float in
  1 <= brush_radius v <= 200
  /\ match tool v with
     | ToolNone => cursor v = ArrowCursor
     | _ =>
         match Py.int_of_float product with
         | inr n =>
             let radius := Z.max 1 n in
             let size := Z.max 64 (radius * 2 + 10) in
             if fits_c_int size then
               if image_allocates size size
               then cursor v = brush_cursor radius
                    /\ cursor_radius (cursor v) = Some radius
               else cursor v = ArrowCursor
             else True
         | inl _ => is_finite product = false
         end
         /\ (forall pos dy, step w (Wheel pos dy) = w)
     end.
Proof.
  intros w v product.
  destruct (run_cursor_invariant evs) as [Hg Hr]. fold w in Hg, Hr. fold v in Hg, Hr.
  split; [exact Hr|].
  unfold glyph_matches in Hg.
  assert (Hsr : screen_radius (brush_radius v) (transform v)
                = match Py.int_of_float product with
                  | inl e => inl e
                  | inr n => inr (Z.max 1 n)
                  end).
  { unfold screen_radius, Py.mul_int_float. rewrite float_of_int_slider by exact Hr.
    reflexivity. }
  assert (Hfin : forall e, Py.int_of_float product = inl e -> is_finite product = false).
  { intros e He. destruct (is_finite product) eqn:Hf; [|reflexivity].
    destruct (int_of_float_finite product Hf) as [n Hn]. congruence. }
  destruct (tool v) eqn:Ht; [exact Hg| |].
  all: split; [|intros pos dy; unfold step; cbn [dispatch]; unfold wheelEvent;
                 fold v; rewrite Ht; reflexivity].
  all: rewrite Hsr in Hg; destruct (Py.int_of_float product) as [e|n] eqn:Hp;
    [apply (Hfin e); reflexivity|].
  all: cbv zeta in Hg |- *; destruct (fits_c_int _); [|exact I].
  all: destruct (image_allocates _ _); [|exact Hg].
  all: split; [exact Hg | rewrite Hg; apply cursor_radius_brush_cursor].
Qed.

(** ** The mirror-refresh timer *)

(** While erase or paint is active a scroll-wheel event on the primary
    view returns at once: the matrix, the timer and everything else are
    what they were. *)
Theorem wheel_ignored_with_brush (w : MainWindow) (pos : QPoint) (angleDelta_y : Z) :
  is_brush (tool (view w)) = true ->
  wheelEvent pos angleDelta_y w = Returned w.
Proof. intros Hb. unfold wheelEvent. destruct (tool (view w)); [discriminate|..]; reflexivity. Qed.

(** The timer and the callbacks are out of reach of the mirror refresh,
    the brush and the base class. *)

Lemma timer_is_update_mirror (b : bool) : preserves (timer_is b) update_mirror.
Proof. apply preserves_update_mirror; frame_by_projection. Qed.

Lemma timer_is_update_callback (b : bool) :
  preserves (timer_is b) (fun w => call_if_set (update_callback (view w)) w).
Proof.
  intros w Hw. destruct Hw as (Ht & Hs & He & Hu). rewrite Hu. cbn [call_if_set call].
  apply timer_is_update_mirror. repeat split; assumption.
Qed.

Lemma timer_is_apply_brush (b : bool) (pos : QPoint) : preserves (timer_is b) (apply_brush pos).
Proof.
  intros w Hw. destruct (apply_brush_footprint pos w) as [-> | (img & it & ->)]; exact Hw.
Qed.

Lemma timer_is_super_mouse (b : bool) (base : DragMode -> QTransform -> Scroll -> Scroll) :
  preserves (timer_is b) (super_mouse base).
Proof. intros w Hw. exact Hw. Qed.

Lemma timer_is_start (b : bool) (w : MainWindow) :
  timer_is b w ->
  exists w1, call_if_set (interaction_start_callback (view w)) w = Returned w1
             /\ timer_is true w1.
Proof.
  intros (Ht & Hs & He & Hu). rewrite Hs. cbn [call_if_set call].
  unfold on_interaction_start.
  destruct (interaction_timer w) eqn:Hi; cbn [negb]; eexists; (split; [reflexivity|]);
    repeat split; assumption.
Qed.

Lemma timer_is_end (b : bool) (w : MainWindow) :
  timer_is b w ->
  exists w1, call_if_set (interaction_end_callback (view w)) w = Returned w1
             /\ timer_is false w1.
Proof.
  intros (Ht & Hs & He & Hu). rewrite He. cbn [call_if_set call].
  unfold on_interaction_end.
  destruct (interaction_timer w) eqn:Hi; eexists; (split; [reflexivity|]);
    repeat split; assumption.
Qed.

(** The steps of a handler that keep the timer. *)
Ltac timer_steps :=
  repeat first
    [ assumption
    | apply timer_is_super_mouse
    | apply timer_is_update_callback
    | apply timer_is_update_mirror
    | apply timer_is_apply_brush
    | apply preserves_seq
    | let w1 := fresh "w" in let H1 := fresh "Hw" in intros w1 H1 ].

Lemma step_timer (w : MainWindow) (ev : Event) :
  is_wheel ev = false ->
  returned (dispatch ev w) = true ->
  timer_is (interaction_timer w) w ->
  timer_is (interaction_open_step (interaction_timer w) ev) (step w ev).
Proof.
  intros Hev Hret Hw. unfold step.
  destruct ev; try discriminate; cbn [dispatch interaction_open_step] in *.
  - (* MousePress *)
    unfold mousePressEvent in *.
    destruct button.
    + destruct (timer_is_start _ w Hw) as (w1 & E1 & H1).
      destruct (is_brush (tool (view w))); rewrite E1 in *; cbn [and_then] in *; timer_steps.
    + timer_steps.
    + timer_steps.
  - (* MouseRelease *)
    unfold mouseReleaseEvent in *.
    destruct button.
    + assert (Hboth :
        returned ((call_if_set (update_callback (view w)) w >>> fun w =>
                   call_if_set (interaction_end_callback (view w)) w)
                  >>> super_mouse (fun m => base_mouseReleaseEvent m LeftButton pos)) = true
        -> timer_is false
             (state_of ((call_if_set (update_callback (view w)) w >>> fun w =>
                         call_if_set (interaction_end_callback (view w)) w)
                        >>> super_mouse (fun m => base_mouseReleaseEvent m LeftButton pos)))).
      { pose proof (timer_is_update_callback _ w Hw) as Hu.
        destruct (call_if_set (update_callback (view w)) w) as [w1|e w1]; cbn in Hu |- *;
          [|discriminate].
        destruct (timer_is_end _ w1 Hu) as (w2 & E2 & H2). rewrite E2. cbn. intros _. exact H2. }
      destruct (is_brush (tool (view w))); apply Hboth; exact Hret.
    + timer_steps.
    + timer_steps.
  - (* MouseMove *)
    unfold mouseMoveEvent.
    destruct (is_brush (tool (view w)) && left_down); timer_steps.
  - unfold on_erase_clicked.
    destruct (negb (erase_btn w)); [|destruct (negb _)]; cbn [state_of];
      footprints; exact Hw.
  - unfold on_paint_clicked.
    destruct (negb (paint_btn w)); [|destruct (negb _)]; cbn [state_of];
      footprints; exact Hw.
  - destruct (_ =? _); [exact Hw|].
    unfold on_brush_slider_changed. footprints. exact Hw.
  - unfold on_open_image.
    destruct (String.eqb path ""); [exact Hw|].
    destruct (isNull pm); [exact Hw|].
    destruct (tabs_currentIndex w =? 0); exact Hw.
  - destruct (_ || _); exact Hw.
  - destruct (interaction_timer w) eqn:Hi; [|exact Hw].
    rewrite <- Hi. apply timer_is_update_mirror. rewrite Hi. exact Hw.
  - exact Hw.
  - unfold MainWindow_resizeEvent. cbn. destruct (_ =? _); exact Hw.
  - exact Hw.
  - unfold MirrorWindow_close. destruct (MirrorWindow_closeEvent w); exact Hw.
  - unfold StaticMirrorWindow_close. destruct (StaticMirrorWindow_closeEvent w); exact Hw.
  - exact Hw.
Qed.

Lemma run_timer (evs : list Event) (w : MainWindow) :
  forallb (fun ev => negb (is_wheel ev)) evs = true ->
  all_returned evs w = true ->
  timer_is (interaction_timer w) w ->
  interaction_timer (run evs w) = fold_left interaction_open_step evs (interaction_timer w).
Proof.
  revert w. induction evs as [|ev evs IH]; intros w Hnw Hret Hw; [reflexivity|].
  cbn [forallb all_returned] in Hnw, Hret.
  apply andb_true_iff in Hnw. destruct Hnw as [Hev Hnw].
  apply andb_true_iff in Hret. destruct Hret as [Hr Hret].
  apply negb_true_iff in Hev.
  pose proof (step_timer w ev Hev Hr Hw) as Hstep.
  rewrite run_cons. cbn [fold_left].
  destruct Hstep as [Ht Hc]. rewrite <- Ht.
  apply IH; try assumption. split; [reflexivity | exact Hc].
Qed.

(** Over every event sequence that holds no scroll-wheel event and in
    which no handler raises, the mirror-refresh timer is active exactly
    when an interaction (a left-button press not yet followed by its
    release) is open. *)
Theorem timer_tracks_interaction (evs : list Event) :
  forallb (fun ev => negb (is_wheel ev)) evs = true ->
  all_returned evs MainWindow_init = true ->
  interaction_timer (run evs MainWindow_init) = interaction_open evs.
Proof.
  intros Hnw Hret.
  apply (run_timer evs MainWindow_init Hnw Hret).
  repeat split.
Qed.

(** ** Zoom *)

Lemma view_geometry_call_if_set (cb : option Callback) (w : MainWindow) :
  transform (view (state_of (call_if_set cb w))) = transform (view w)
  /\ scroll (view (state_of (call_if_set cb w))) = scroll (view w).
Proof.
  apply (preserves_call_if_set
           (fun w' => transform (view w') = transform (view w)
                      /\ scroll (view w') = scroll (view w)));
    try frame_by_projection.
  split; reflexivity.
Qed.

Lemma update_mirror_without_brush (w : MainWindow) :
  tool (view w) = ToolNone ->
  update_mirror w
  = Returned (sync_preview_transform
                (with_mirror_window
                   (set_mirror_pixmap
                      (grab (transform (view w)) (scroll (view w))
                         (item_pixmap PixmapItem (items w)) (item_pixmap OverlayItem (items w)))
                      (mirror_window w)) w)).
Proof. intros Ht. unfold update_mirror. cbn. rewrite Ht. reflexivity. Qed.

(** With no tool selected and the callbacks wired, a scroll-wheel event
    returns, and the view's matrix afterwards is the matrix before, scaled
    in both axes by 1.2 when the wheel delta is positive and by 1/1.2
    otherwise, then translated by the difference between the scene point
    under the pointer after the scaling and the one before it. *)
Theorem wheel_scales_then_translates (w : MainWindow) (pos : QPoint) (angleDelta_y : Z) :
  tool (view w) = ToolNone ->
  callbacks_wired w ->
  let v := view w in
  let zoom_factor := if 0 <? angleDelta_y then 1.2%float else (1 / 1.2)%float in
  let old_pos := mapToScene (transform v) (scroll v) pos in
  let v1 := view_scale zoom_factor zoom_factor v in
  let new_pos := mapToScene (transform v1) (scroll v1) pos in
  returned (wheelEvent pos angleDelta_y w) = true
  /\ transform (view (state_of (wheelEvent pos angleDelta_y w)))
     = translate (ptf_x new_pos - ptf_x old_pos)%float (ptf_y new_pos - ptf_y old_pos)%float
         (scale zoom_factor zoom_factor (transform v)).
Proof.
  intros Ht Hw. cbv zeta.
  assert (Hwired : timer_is (interaction_timer w) w) by (split; [reflexivity | exact Hw]).
  destruct (timer_is_start _ w Hwired) as (w1 & E1 & H1).
  pose proof (view_geometry_call_if_set (interaction_start_callback (view w)) w) as [Gt Gs].
  pose proof (tool_call_if_set (interaction_start_callback (view w)) w) as Gtool.
  rewrite E1 in Gt, Gs, Gtool. cbn [state_of] in Gt, Gs, Gtool.
  unfold wheelEvent. rewrite Ht, E1. cbn [and_then].
  destruct H1 as (_ & _ & _ & Hu).
  set (v2 := view_translate _ _ _).
  assert (Hu2 : update_callback (view (with_view v2 w1)) = Some cb_update_mirror) by exact Hu.
  rewrite Hu2. cbn [call_if_set call].
  assert (Htool2 : tool (view (with_view v2 w1)) = ToolNone).
  { cbn. rewrite Gtool. exact Ht. }
  rewrite (update_mirror_without_brush _ Htool2).
  split; [reflexivity|].
  cbn [state_of]. unfold sync_preview_transform. cbn [view with_preview_view with_mirror_window
                                                       with_view].
  unfold v2, view_translate, view_scale. cbn [transform setTransform with_scroll with_transform
                                               scroll].
  rewrite Gt, Gs. reflexivity.
Qed.

(** ** Tool, drag mode and slider *)

(** The events the frame lemmas do not cover, one goal each. *)
Ltac widget_events ev w :=
  unfold step; destruct ev; try discriminate; cbn [dispatch];
  [ unfold on_erase_clicked;
    destruct (negb (erase_btn w)); [|destruct (negb _)]; cbn [state_of]; footprints
  | unfold on_paint_clicked;
    destruct (negb (paint_btn w)); [|destruct (negb _)]; cbn [state_of]; footprints
  | destruct (_ =? _); [|unfold on_brush_slider_changed; footprints]
  | unfold on_open_image;
    destruct (String.eqb _ "") eqn:?;
      [|destruct (isNull _) eqn:?; [|destruct (tabs_currentIndex w =? 0) eqn:?]]
  | destruct (_ || _)
  | unfold MainWindow_resizeEvent; cbn; destruct (_ =? _)
  | idtac
  | unfold MirrorWindow_close; destruct (MirrorWindow_closeEvent w)
  | unfold StaticMirrorWindow_close; destruct (StaticMirrorWindow_closeEvent w)
  | idtac ].

Lemma step_drag_follows_tool (w : MainWindow) (ev : Event) :
  drag_follows_tool w -> drag_follows_tool (step w ev).
Proof.
  intros Hw.
  destruct (is_view_input ev) eqn:Hin.
  { apply (preserves_view_input drag_follows_tool); try frame_by_projection; assumption. }
  widget_events ev w; first [exact Hw | reflexivity].
Qed.

(** X4.  After every event sequence hand-drag scrolling of the primary
    view is enabled exactly when no brush tool is selected: the drag mode
    is [ScrollHandDrag] with tool none and [NoDrag] with erase or paint. *)
Theorem pan_enabled_iff_no_tool (evs : list Event) :
  let w := run evs MainWindow_init in
  dragMode (view w) = match tool (view w) with ToolNone => ScrollHandDrag | _ => NoDrag end.
Proof.
  apply (run_invariant drag_follows_tool).
  - apply step_drag_follows_tool.
  - reflexivity.
Qed.

Lemma step_radius_follows_slider (w : MainWindow) (ev : Event) :
  radius_follows_slider w -> radius_follows_slider (step w ev).
Proof.
  intros Hw.
  destruct (is_view_input ev) eqn:Hin.
  { apply (preserves_view_input radius_follows_slider); try frame_by_projection; assumption. }
  widget_events ev w; try exact Hw.
  split; [reflexivity | cbn; lia].
Qed.

(** X5.  After every event sequence the view's brush radius equals the
    slider's value and lies between 1 and 200: a slider change reaches the
    view at once, whatever the tool, and nothing else changes the
    radius. *)
Theorem brush_radius_is_slider_value (evs : list Event) :
  let w := run evs MainWindow_init in
  brush_radius (view w) = brush_slider w /\ 1 <= brush_radius (view w) <= 200.
Proof.
  intros w.
  assert (H : radius_follows_slider w).
  { apply (run_invariant radius_follows_slider).
    - apply step_radius_follows_slider.
    - split; [reflexivity | cbn; lia]. }
  destruct H as [He Hr]. split; [exact He | rewrite He; exact Hr].
Qed.

(** ** The preview and the mirror follow the view *)

Lemma update_mirror_refreshes (w : MainWindow) :
  let w' := state_of (update_mirror w) in
  label_pixmap (mw_label (mirror_window w'))
  = grab (transform (view w')) (scroll (view w'))
      (item_pixmap PixmapItem (items w')) (item_pixmap OverlayItem (items w'))
  /\ pv_transform (preview_view w') = transform (view w')
  /\ transform (view w') = transform (view w)
  /\ interaction_start_callback (view w') = interaction_start_callback (view w)
  /\ interaction_end_callback (view w') = interaction_end_callback (view w)
  /\ update_callback (view w') = update_callback (view w).
Proof.
  unfold update_mirror. cbn [view sync_preview_transform with_preview_view with_mirror_window].
  destruct (is_brush (tool (view w))).
  - rewrite state_of_lift.
    match goal with
    | |- context [state_of (update_cursor ?v)] =>
        destruct (update_cursor_cursor_only v) as [c ->]
    end.
    repeat split.
  - repeat split.
Qed.

Lemma preview_in_step_update_mirror : preserves preview_in_step update_mirror.
Proof.
  intros w [(Hs & He & Hu) _].
  destruct (update_mirror_refreshes w) as (_ & Hp & _ & Hs' & He' & Hu').
  split; [|exact Hp]. unfold callbacks_wired. rewrite Hs', He', Hu'. auto.
Qed.

Lemma preview_in_step_call (cb : Callback) : preserves preview_in_step (call cb).
Proof.
  destruct cb; intros w Hw; cbn [call].
  - unfold on_interaction_start. destruct (negb (interaction_timer w)); exact Hw.
  - unfold on_interaction_end. destruct (interaction_timer w); exact Hw.
  - apply preview_in_step_update_mirror, Hw.
Qed.

Lemma preview_in_step_call_if_set (cb : option Callback) :
  preserves preview_in_step (call_if_set cb).
Proof.
  destruct cb as [c|]; intros w Hw; cbn [call_if_set].
  - apply preview_in_step_call, Hw.
  - exact Hw.
Qed.

Lemma preview_in_step_apply_brush (pos : QPoint) : preserves preview_in_step (apply_brush pos).
Proof.
  intros w Hw. destruct (apply_brush_footprint pos w) as [-> | (img & it & ->)]; exact Hw.
Qed.

Lemma preview_in_step_super_mouse (base : DragMode -> QTransform -> Scroll -> Scroll) :
  preserves preview_in_step (super_mouse base).
Proof. intros w Hw. exact Hw. Qed.

(** The steps of a mouse handler, none of which moves the matrix. *)
Ltac preview_steps :=
  repeat first
    [ assumption
    | apply preview_in_step_super_mouse
    | apply preview_in_step_call_if_set
    | apply preview_in_step_update_mirror
    | apply preview_in_step_apply_brush
    | apply preserves_seq
    | let w1 := fresh "w" in let H1 := fresh "Hw" in intros w1 H1 ].

Lemma preview_in_step_wheelEvent (pos : QPoint) (dy : Z) :
  preserves preview_in_step (wheelEvent pos dy).
Proof.
  intros w Hw. unfold wheelEvent.
  destruct (tool (view w)) eqn:Ht; try exact Hw.
  pose proof (preview_in_step_call_if_set (interaction_start_callback (view w)) w Hw) as H1.
  unfold and_then.
  destruct (call_if_set (interaction_start_callback (view w)) w) as [w1|e w1];
    cbn [state_of] in H1; [|exact H1].
  destruct H1 as [(Hs & He & Hu) _].
  set (v2 := view_translate _ _ _).
  assert (Hu2 : update_callback (view (with_view v2 w1)) = Some cb_update_mirror) by exact Hu.
  rewrite Hu2. cbn [call_if_set call].
  destruct (update_mirror_refreshes (with_view v2 w1)) as (_ & Hp & _ & Hs' & He' & Hu').
  split; [|exact Hp]. unfold callbacks_wired. rewrite Hs', He', Hu'.
  repeat split; assumption.
Qed.

Lemma load_interactive_image_wiring (pm : QPixmap) (w : MainWindow) :
  let w' := state_of (load_interactive_image pm w) in
  interaction_start_callback (view w') = interaction_start_callback (view w)
  /\ interaction_end_callback (view w') = interaction_end_callback (view w)
  /\ update_callback (view w') = update_callback (view w)
  /\ pv_transform (preview_view w') = transform (view w').
Proof. cbv. repeat split. Qed.

Lemma step_preview_in_step (w : MainWindow) (ev : Event) :
  preview_in_step w -> preview_in_step (step w ev).
Proof.
  intros Hw.
  destruct (is_view_input ev) eqn:Hin.
  { unfold step. destruct ev; try discriminate; cbn [dispatch].
    - apply preview_in_step_wheelEvent, Hw.
    - unfold mousePressEvent.
      destruct button; [destruct (is_brush (tool (view w)))|..]; preview_steps.
    - unfold mouseReleaseEvent.
      destruct button; [destruct (is_brush (tool (view w)))|..]; preview_steps.
    - unfold mouseMoveEvent.
      destruct (is_brush (tool (view w)) && left_down); preview_steps.
    - destruct (interaction_timer w); [apply preview_in_step_update_mirror|]; exact Hw.
    - destruct Hw as [Hc _]. split; [exact Hc | reflexivity]. }
  widget_events ev w; try exact Hw.
  destruct Hw as [(Hs & He & Hu) _].
  destruct (load_interactive_image_wiring pm w) as (Hs' & He' & Hu' & Hp).
  split; [|exact Hp]. unfold callbacks_wired. rewrite Hs', He', Hu'. auto.
Qed.

(** X6.  After every event sequence the preview view has exactly the
    matrix of the primary view: every change of the primary view's matrix
    (wheel zoom, fit-to-view on load) is copied to the preview within the
    same handler. *)
Theorem preview_transform_in_lockstep (evs : list Event) :
  let w := run evs MainWindow_init in
  pv_transform (preview_view w) = transform (view w).
Proof.
  intros w.
  assert (H : preview_in_step w).
  { apply (run_invariant preview_in_step).
    - apply step_preview_in_step.
    - repeat split. }
  exact (proj2 H).
Qed.


(** ** The overlay stays on the base image *)

Lemma overlay_in_place_apply_brush (pos : QPoint) :
  preserves overlay_in_place (apply_brush pos).
Proof.
  intros w Hw. unfold apply_brush.
  destruct Hw as [Hpv Hw].
  destruct (overlay_image (view w)) as [img|] eqn:Himg.
  - destruct Hw as (Hit & Hov & Hnn & Hwd & Hht & Hwf).
    rewrite Hit, Hnn.
    destruct (brush_point (view w) pos) as [e|[x y]]; [|destruct (negb _)];
      cbn [state_of].
    + split; [exact Hpv|]. rewrite Himg. auto 10.
    + split; [exact Hpv|]. rewrite Himg. auto 10.
    + split; [exact Hpv|]. cbn.
      repeat split; try assumption.
      apply well_formed_drawEllipse, Hwf.
  - cbn [state_of]. split; [exact Hpv|]. rewrite Himg. exact Hw.
Qed.

Lemma load_interactive_image_in_place (pm : QPixmap) (w : MainWindow) :
  isNull pm = false -> overlay_in_place (state_of (load_interactive_image pm w)).
Proof.
  intros Hnull. apply isNull_false in Hnull. destruct Hnull as [Hw Hh].
  destruct (size_fill_new (qRgba 0 0 0 255) (width pm) (height pm) Hw Hh) as (Ew & Eh & El).
  split; [cbv; reflexivity|].
  destruct (load_interactive_image_overlay pm w) as (Ho & Hoi & Hi & Hp).
  cbv zeta in Ho, Hoi, Hi, Hp. rewrite Ho, Hp.
  repeat split; try assumption.
  - apply isNull_false. rewrite Ew, Eh. auto.
  - apply well_formed_fill_new.
Qed.

Lemma step_overlay_in_place (w : MainWindow) (ev : Event) :
  overlay_in_place w -> overlay_in_place (step w ev).
Proof.
  intros Hw.
  destruct (is_view_input ev) eqn:Hin.
  { apply (preserves_view_input overlay_in_place); try frame_by_projection; try assumption.
    apply overlay_in_place_apply_brush. }
  widget_events ev w; try exact Hw.
  apply load_interactive_image_in_place. assumption.
Qed.

(** X8.  After every event sequence the overlay fits the base image: the
    preview item shows the pixmap of the base item; before the first load
    into the interactive tab there is neither an overlay nor a base image;
    from then on the view's overlay image is a non-null image with one
    buffer entry per pixel, of exactly the width and height of the base
    pixmap, and the overlay item shows that very image, however many
    strokes have been drawn on it. *)
Theorem overlay_fits_base_image (evs : list Event) :
  let w := run evs MainWindow_init in
  item_pixmap PreviewItem (items w) = item_pixmap PixmapItem (items w)
  /\ match overlay_image (view w) with
     | None => overlay_item (view w) = None /\ item_pixmap PixmapItem (items w) = null_image
     | Some img =>
         overlay_item (view w) = Some OverlayItem
         /\ item_pixmap OverlayItem (items w) = img
         /\ isNull img = false
         /\ width img = width (item_pixmap PixmapItem (items w))
         /\ height img = height (item_pixmap PixmapItem (items w))
         /\ length (pixels img) = Z.to_nat (width img * height img)
     end.
Proof.
  apply (run_invariant overlay_in_place).
  - apply step_overlay_in_place.
  - repeat split.
Qed.

(** ** What can change the overlay and the matrix *)

(** Closes the case of a load into the interactive tab when [Hno] rules
    it out. *)
Ltac no_load Hno :=
  exfalso; revert Hno;
  cbn [may_change_overlay may_change_matrix]; unfold loads_interactive;
  repeat match goal with H : _ = _ |- _ => rewrite H end;
  cbn [negb andb]; discriminate.

Section QuietInput.

Variable Q : MainWindow -> Prop.

Hypothesis Q_timer : forall b w, Q w -> Q (with_interaction_timer b w).
Hypothesis Q_mirror :
  forall pm w, Q w -> Q (with_mirror_window (set_mirror_pixmap pm (mirror_window w)) w).
Hypothesis Q_preview : forall p w, Q w -> Q (with_preview_view p w).
Hypothesis Q_update_cursor :
  forall w, Q w -> Q (state_of (lift with_view (update_cursor (view w)) w)).
Hypothesis Q_scroll : forall sc w, Q w -> Q (with_view (with_scroll sc (view w)) w).
Hypothesis Q_zoom :
  forall t w, tool (view w) = ToolNone -> Q w -> Q (with_view (with_transform t (view w)) w).

(** The steps of a mouse handler that does not reach the brush. *)
Ltac quiet_steps :=
  repeat first
    [ assumption
    | apply (preserves_super_mouse Q)
    | apply (preserves_call_if_set Q)
    | apply preserves_seq
    | let w1 := fresh "w" in let H1 := fresh "Hw" in intros w1 H1 ].

(** An input event that does not reach the brush keeps whatever the
    callbacks, the zoom and the base class keep. *)
Lemma preserves_without_stroke (ev : Event) (w : MainWindow) :
  is_view_input ev = true -> may_change_overlay ev w = false -> Q w -> Q (step w ev).
Proof.
  intros Hev Hno Hw. unfold step. destruct ev; try discriminate; cbn [dispatch].
  - apply (preserves_wheelEvent Q); assumption.
  - unfold mousePressEvent.
    destruct button; cbn [may_change_overlay] in Hno; [rewrite Hno|..]; quiet_steps.
  - unfold mouseReleaseEvent.
    destruct button; [destruct (is_brush (tool (view w)))|..]; quiet_steps.
  - unfold mouseMoveEvent.
    destruct left_down; cbn [may_change_overlay] in Hno;
      [rewrite Hno; cbn [andb] | rewrite andb_false_r]; quiet_steps.
  - destruct (interaction_timer w); [apply (preserves_update_mirror Q)|]; assumption.
  - cbn [state_of]. apply (preserves_sync_preview_transform Q); [assumption|].
    apply Q_scroll, Hw.
Qed.

End QuietInput.

(** X9.  The overlay is drawn on or replaced only by a brush stroke or a
    load: an event other than a left-button press or a left-button drag
    with a brush tool selected, and other than a load into the interactive
    tab, leaves the view's overlay image, its overlay item and the pixmaps
    of all three scene items as they were, whether its handler returns or
    raises. *)
Theorem overlay_changes_only_by_stroke_or_load (w : MainWindow) (ev : Event) :
  may_change_overlay ev w = false ->
  overlay_image (view (step w ev)) = overlay_image (view w)
  /\ overlay_item (view (step w ev)) = overlay_item (view w)
  /\ items (step w ev) = items w.
Proof.
  intros Hno.
  pose (Q := fun w' : MainWindow =>
               overlay_image (view w') = overlay_image (view w)
               /\ overlay_item (view w') = overlay_item (view w)
               /\ items w' = items w).
  assert (Hw : Q w) by (repeat split).
  change (Q (step w ev)).
  destruct (is_view_input ev) eqn:Hin.
  { apply (preserves_without_stroke Q); try frame_by_projection; assumption. }
  widget_events ev w; try no_load Hno; exact Hw.
Qed.

(** X10.  The view's matrix changes only by a zoom or a load: an event
    other than a wheel event with no brush tool selected, and other than
    a load into the interactive tab, leaves the matrix of the primary
    view as it was; in particular no mouse press, drag, release, resize,
    tool or slider change moves it. *)
Theorem matrix_changes_only_by_wheel_or_load (w : MainWindow) (ev : Event) :
  may_change_matrix ev w = false ->
  transform (view (step w ev)) = transform (view w).
Proof.
  intros Hno.
  pose (Q := fun w' : MainWindow => transform (view w') = transform (view w)).
  assert (Hw : Q w) by reflexivity.
  change (Q (step w ev)).
  destruct (is_view_input ev) eqn:Hin.
  { unfold step. destruct ev; try discriminate; cbn [dispatch].
    - cbn [may_change_matrix] in Hno. apply negb_false_iff in Hno.
      unfold wheelEvent. destruct (tool (view w)); [discriminate|exact Hw..].
    - apply (preserves_mousePressEvent Q); try frame_by_projection; assumption.
    - apply (preserves_mouseReleaseEvent Q); try frame_by_projection; assumption.
    - apply (preserves_mouseMoveEvent Q); try frame_by_projection; assumption.
    - destruct (interaction_timer w); [|exact Hw].
      apply (preserves_update_mirror Q); try frame_by_projection; assumption.
    - exact Hw. }
  widget_events ev w; try no_load Hno; exact Hw.
Qed.

(** ** One stroke, and the same stroke again *)

Lemma brush_pixel (t : Tool) (r : QRect) (px py : Z) (d : QRgb) :
  is_brush t = true ->
  draw_pixel (brush_painter t) r px py d
  = if ellipse_fill r px py then stroke_colour t else d.
Proof.
  destruct t; [discriminate|..]; intros _; unfold draw_pixel; cbn;
    destruct (ellipse_fill r px py); reflexivity.
Qed.

(** With a brush tool the painter overwrites: what was drawn before on the
    same ellipse does not show in the result. *)
Lemma drawEllipse_overwrites (t1 t2 : Tool) (x y wd ht : Z) (img : QImage) :
  is_brush t1 = true -> is_brush t2 = true ->
  drawEllipse (brush_painter t2) x y wd ht (drawEllipse (brush_painter t1) x y wd ht img)
  = drawEllipse (brush_painter t2) x y wd ht img.
Proof.
  intros H1 H2. unfold drawEllipse. cbn [width height pixels]. f_equal.
  apply list_eq. intros i. rewrite !list_lookup_imap.
  destruct (pixels img !! i) as [d|]; cbn; [|reflexivity].
  f_equal. rewrite !brush_pixel by assumption.
  destruct (ellipse_fill _ _ _); reflexivity.
Qed.

Lemma apply_brush_draws (pos : QPoint) (w : MainWindow) (img : QImage) (item : ItemRef)
  (x y : Z) :
  overlay_image (view w) = Some img ->
  overlay_item (view w) = Some item ->
  isNull img = false ->
  brush_point (view w) pos = inr (x, y) ->
  brush_args_fit x y (brush_radius (view w)) = true ->
  let r := brush_radius (view w) in
  let img' := drawEllipse (brush_painter (tool (view w))) (x - r) (y - r) (r * 2) (r * 2) img in
  apply_brush pos w
  = Returned (with_items (setPixmap item img' (items w))
                (with_view (with_overlay_image img' (view w)) w)).
Proof.
  intros Himg Hitem Hnull Hpt Hfit. unfold apply_brush. unfold brush_args_fit in Hfit.
  rewrite Himg, Hitem, Hnull, Hpt, Hfit. reflexivity.
Qed.

Lemma apply_brush_overflows (pos : QPoint) (w : MainWindow) (img : QImage) (item : ItemRef)
  (x y : Z) :
  overlay_image (view w) = Some img ->
  overlay_item (view w) = Some item ->
  isNull img = false ->
  brush_point (view w) pos = inr (x, y) ->
  brush_args_fit x y (brush_radius (view w)) = false ->
  apply_brush pos w = Raised Py.OverflowError w.
Proof.
  intros Himg Hitem Hnull Hpt Hfit. unfold apply_brush. unfold brush_args_fit in Hfit.
  rewrite Himg, Hitem, Hnull, Hpt, Hfit. reflexivity.
Qed.

(** X11.  One brush stroke on an overlay that is in place.  The stroke
    raises, and the state is what it was, when the view position does not
    map to a pixel position (a coordinate is not a finite number) and
    when an argument of [drawEllipse] ([x - r], [y - r], [r * 2]) does not
    fit a C int.  Otherwise it returns; the overlay image and the pixmap
    of the overlay item are one new image of the same size; every pixel
    of it inside the brush ellipse, a circle of the brush radius around
    the pixel position, is transparent (alpha 0) after an erase stroke and
    opaque black after a paint stroke, and every other pixel is what it
    was. *)
Theorem stroke_covers_brush_ellipse
  (w : MainWindow) (pos : QPoint) (img : QImage) (item : ItemRef) :
  overlay_image (view w) = Some img ->
  overlay_item (view w) = Some item ->
  isNull img = false ->
  well_formed img ->
  is_brush (tool (view w)) = true ->
  match brush_point (view w) pos with
  | inl e => apply_brush pos w = Raised e w
  | inr (x, y) =>
      if brush_args_fit x y (brush_radius (view w)) then
        exists (w' : MainWindow) (img' : QImage),
          apply_brush pos w = Returned w'
          /\ overlay_image (view w') = Some img'
          /\ item_pixmap item (items w') = img'
          /\ width img' = width img /\ height img' = height img
          /\ well_formed img'
          /\ (forall px py, 0 <= px < width img -> 0 <= py < height img ->
                pixel img' px py
                = if ellipse_fill (brush_rect x y (brush_radius (view w))) px py
                  then Some (stroke_colour (tool (view w)))
                  else pixel img px py)
          /\ qAlpha Qt_transparent = 0 /\ qAlpha opaque_black = 255
      else apply_brush pos w = Raised Py.OverflowError w
  end.
Proof.
  intros Himg Hitem Hnull Hwf Htool.
  destruct (brush_point (view w) pos) as [e|[x y]] eqn:Hpt.
  { unfold apply_brush. rewrite Himg, Hitem, Hnull, Hpt. reflexivity. }
  destruct (brush_args_fit x y (brush_radius (view w))) eqn:Hfit.
  2:{ apply (apply_brush_overflows pos w img item x y); assumption. }
  pose proof (apply_brush_draws pos w img item x y Himg Hitem Hnull Hpt Hfit) as Hdraw.
  cbv zeta in Hdraw.
  set (r := brush_radius (view w)) in *.
  set (img' := drawEllipse _ _ _ _ _ img) in *.
  eexists _, img'. split; [exact Hdraw|].
  split; [reflexivity|].
  split; [destruct item; reflexivity|].
  split; [reflexivity|]. split; [reflexivity|].
  split; [apply well_formed_drawEllipse, Hwf|].
  split; [|split; reflexivity].
  intros px py Hx Hy. unfold img'. rewrite pixel_drawEllipse by assumption.
  destruct (pixel_is_Some img px py Hwf Hx Hy) as [d Hd]. rewrite Hd.
  cbn [fmap option_fmap option_map].
  fold (brush_rect x y r). rewrite brush_pixel by exact Htool.
  destruct (ellipse_fill (brush_rect x y r) px py); reflexivity.
Qed.

(** X12.  A stroke repeated at the same view position changes nothing:
    with a brush tool selected, applying the brush to the state a stroke
    has left gives the outcome of that stroke again, the same state and,
    where the stroke raised, the same exception.  Holding the mouse still
    during a drag therefore leaves the overlay as the first stroke made
    it. *)
Theorem stroke_is_idempotent (w : MainWindow) (pos : QPoint) :
  is_brush (tool (view w)) = true ->
  apply_brush pos (state_of (apply_brush pos w)) = apply_brush pos w.
Proof.
  intros Htool.
  destruct (overlay_image (view w)) as [img|] eqn:Himg.
  2:{ rewrite (apply_brush_no_overlay pos w) by (left; exact Himg). cbn [state_of].
      apply apply_brush_no_overlay. left. exact Himg. }
  destruct (overlay_item (view w)) as [item|] eqn:Hitem.
  2:{ rewrite (apply_brush_no_overlay pos w) by (right; exact Hitem). cbn [state_of].
      apply apply_brush_no_overlay. right. exact Hitem. }
  destruct (isNull img) eqn:Hnull.
  { assert (H : apply_brush pos w = Returned w).
    { unfold apply_brush. rewrite Himg, Hitem, Hnull. reflexivity. }
    rewrite H. cbn [state_of]. exact H. }
  destruct (brush_point (view w) pos) as [e|[x y]] eqn:Hpt.
  { assert (H : apply_brush pos w = Raised e w).
    { unfold apply_brush. rewrite Himg, Hitem, Hnull, Hpt. reflexivity. }
    rewrite H. cbn [state_of]. exact H. }
  destruct (brush_args_fit x y (brush_radius (view w))) eqn:Hfit.
  2:{ pose proof (apply_brush_overflows pos w img item x y Himg Hitem Hnull Hpt Hfit) as H.
      rewrite H. cbn [state_of]. exact H. }
  pose proof (apply_brush_draws pos w img item x y Himg Hitem Hnull Hpt Hfit) as Hdraw.
  cbv zeta in Hdraw.
  set (r := brush_radius (view w)) in *.
  set (img1 := drawEllipse _ _ _ _ _ img) in *.
  rewrite Hdraw. cbn [state_of].
  set (w1 := with_items _ _).
  assert (E1 : overlay_image (view w1) = Some img1) by reflexivity.
  assert (E2 : overlay_item (view w1) = Some item) by exact Hitem.
  assert (E3 : isNull img1 = false) by exact Hnull.
  assert (E4 : brush_point (view w1) pos = inr (x, y)) by exact Hpt.
  assert (E8 : brush_args_fit x y (brush_radius (view w1)) = true) by exact Hfit.
  rewrite (apply_brush_draws pos w1 img1 item x y E1 E2 E3 E4 E8).
  cbv zeta.
  assert (E5 : brush_radius (view w1) = r) by reflexivity.
  assert (E6 : tool (view w1) = tool (view w)) by reflexivity.
  rewrite E5, E6.
  assert (E7 : drawEllipse (brush_painter (tool (view w))) (x - r) (y - r) (r * 2) (r * 2) img1
               = img1).
  { unfold img1. apply drawEllipse_overwrites; exact Htool. }
  rewrite E7. f_equal. unfold w1. destruct item; reflexivity.
Qed.

(** ** The static tab and the static mirror *)

Lemma load_interactive_image_static (pm : QPixmap) (w : MainWindow) :
  let w' := state_of (load_interactive_image pm w) in
  static_label w' = static_label w
  /\ static_mirror_window w' = static_mirror_window w
  /\ tabs_currentIndex w' = tabs_currentIndex w.
Proof. cbv. repeat split. Qed.

Lemma set_image_scaled (pm : QPixmap) (m : StaticMirrorWindow) :
  isNull pm = false ->
  smw_original_pixmap (set_image pm m) = Some pm
  /\ label_pixmap (smw_label (set_image pm m)) = scaled pm (label_size (smw_label m))
  /\ label_size (smw_label (set_image pm m)) = label_size (smw_label m).
Proof.
  intros Hn. unfold set_image, update_display. cbn [smw_original_pixmap].
  rewrite Hn. repeat split.
Qed.

Lemma step_static_mirror_scaled (w : MainWindow) (ev : Event) :
  static_mirror_scaled w -> static_mirror_scaled (step w ev).
Proof.
  intros Hw.
  destruct (is_view_input ev) eqn:Hin.
  { apply (preserves_view_input static_mirror_scaled); try frame_by_projection; assumption. }
  widget_events ev w; try exact Hw.
  - unfold static_mirror_scaled, load_static_image.
    cbn [state_of static_mirror_window with_static_mirror_window with_static_label].
    match goal with
    | H : isNull pm = false |- _ =>
        destruct (set_image_scaled pm (static_mirror_window w) H) as (-> & -> & ->)
    end.
    split; [assumption | reflexivity].
  - unfold static_mirror_scaled in *. cbv zeta in *.
    cbn [state_of static_mirror_window with_static_mirror_window] in *.
    unfold StaticMirrorWindow_resizeEvent, update_display.
    cbn [smw_original_pixmap smw_with_label].
    destruct (smw_original_pixmap (static_mirror_window w)) as [pm|] eqn:Ho.
    + destruct Hw as [Hn Hl]. rewrite Hn. cbn. rewrite Ho. split; [exact Hn | reflexivity].
    + cbn. rewrite Ho. exact Hw.
Qed.

(** X13.  After every event sequence the static mirror shows its
    original image scaled to the size its label then has: the label has
    no pixmap until an image is loaded into the static tab; from then on
    the stored original is not null and the label shows that original,
    scaled to the label's current size.  A resize of the mirror rescales
    from the original, never from an image that was scaled before. *)
Theorem static_mirror_shows_scaled_original (evs : list Event) :
  let m := static_mirror_window (run evs MainWindow_init) in
  match smw_original_pixmap m with
  | None => label_pixmap (smw_label m) = null_image
  | Some pm =>
      isNull pm = false
      /\ label_pixmap (smw_label m) = scaled pm (label_size (smw_label m))
  end.
Proof.
  apply (run_invariant static_mirror_scaled).
  - apply step_static_mirror_scaled.
  - unfold static_mirror_scaled. reflexivity.
Qed.

(** X14.  An open-image action with a path and a decodable file never
    raises and is routed by the selected tab.  With the interactive tab
    selected the image becomes the base pixmap, and the static tab's label
    and the static mirror are as they were.  With the other tab selected
    the static label loses its text and shows the image scaled to the
    label's size, the static mirror stores the image as its original and
    shows it scaled to its own label, and the view, the scene items, the
    preview and the interactive mirror are as they were. *)
Theorem open_image_routes_by_tab (w : MainWindow) (path : string) (pm : QPixmap) :
  String.eqb path "" = false ->
  isNull pm = false ->
  let w' := step w (OpenImage path pm) in
  returned (dispatch (OpenImage path pm) w) = true
  /\ if tabs_currentIndex w =? 0
     then item_pixmap PixmapItem (items w') = pm
          /\ static_label w' = static_label w
          /\ static_mirror_window w' = static_mirror_window w
     else label_pixmap (static_label w') = scaled pm (label_size (static_label w))
          /\ label_text (static_label w') = ""%string
          /\ smw_original_pixmap (static_mirror_window w') = Some pm
          /\ label_pixmap (smw_label (static_mirror_window w'))
             = scaled pm (label_size (smw_label (static_mirror_window w)))
          /\ view w' = view w
          /\ items w' = items w
          /\ preview_view w' = preview_view w
          /\ mirror_window w' = mirror_window w.
Proof.
  intros Hpath Hnull. unfold step. cbn [dispatch]. unfold on_open_image.
  rewrite Hpath, Hnull.
  destruct (tabs_currentIndex w =? 0).
  - split; [rewrite load_interactive_image_returns; reflexivity|].
    destruct (load_interactive_image_static pm w) as (Hl & Hm & _).
    destruct (load_interactive_image_overlay pm w) as (_ & _ & _ & Hp).
    auto.
  - split; [reflexivity|].
    unfold load_static_image.
    cbn [state_of static_mirror_window with_static_mirror_window static_label
         with_static_label view items preview_view mirror_window].
    destruct (set_image_scaled pm (static_mirror_window w) Hnull) as (Ho & Hs & _).
    repeat split; assumption.
Qed.

(** ** The shape of the brush cursor *)

Lemma screen_radius_positive (r : Z) (t : QTransform) (sr : Z) :
  screen_radius r t = inr sr -> 1 <= sr.
Proof.
  unfold screen_radius.
  destruct (Py.mul_int_float r (scale_factor t)) as [e|prod]; [discriminate|].
  destruct (Py.int_of_float prod) as [e|n]; [discriminate|].
  intros H. injection H as <-. lia.
Qed.

Lemma brush_cursor_well_shaped (sr : Z) : 1 <= sr -> glyph_well_shaped (brush_cursor sr).
Proof.
  intros Hsr. unfold brush_cursor, glyph_well_shaped.
  cbn [glyph_size glyph_ellipse rect_x rect_y rect_width rect_height].
  rewrite Z.div_mul by lia.
  assert (Hc : sr + 5 <= Z.max 64 (sr * 2 + 10) / 2).
  { apply Z.div_le_lower_bound; lia. }
  assert (Hd : Z.max 64 (sr * 2 + 10) / 2 * 2 <= Z.max 64 (sr * 2 + 10)).
  { rewrite Z.mul_comm. apply Z.mul_div_le. lia. }
  repeat split; lia.
Qed.

Lemma update_cursor_well_shaped (v : MyGraphicsView) :
  glyph_well_shaped (cursor v) -> glyph_well_shaped (cursor (state_of (update_cursor v))).
Proof.
  intros Hv. unfold update_cursor.
  destruct (negb (is_brush (tool v))); [exact I|].
  destruct (screen_radius (brush_radius v) (transform v)) as [e|sr] eqn:Hsr; [exact Hv|].
  cbv zeta. destruct (negb (fits_c_int _)); [exact Hv|].
  destruct (image_allocates _ _); [|exact I].
  apply brush_cursor_well_shaped, (screen_radius_positive _ _ _ Hsr).
Qed.

Lemma set_tool_well_shaped (t : Tool) (v : MyGraphicsView) :
  glyph_well_shaped (cursor v) -> glyph_well_shaped (cursor (state_of (set_tool t v))).
Proof.
  intros Hv. unfold set_tool.
  destruct t; cbn [tool with_tool]; [exact I|..]; apply update_cursor_well_shaped; exact Hv.
Qed.

Lemma set_brush_radius_well_shaped (r : Z) (v : MyGraphicsView) :
  glyph_well_shaped (cursor v)
  -> glyph_well_shaped (cursor (state_of (set_brush_radius r v))).
Proof.
  intros Hv. unfold set_brush_radius.
  destruct (is_brush (tool (with_brush_radius r v))); [|exact Hv].
  apply update_cursor_well_shaped. exact Hv.
Qed.

Lemma step_cursor_well_shaped (w : MainWindow) (ev : Event) :
  cursor_well_shaped w -> cursor_well_shaped (step w ev).
Proof.
  intros Hw.
  destruct (is_view_input ev) eqn:Hin.
  { apply (preserves_view_input cursor_well_shaped); try frame_by_projection; try assumption.
    intros w0 Hw0. rewrite state_of_lift. apply update_cursor_well_shaped. exact Hw0. }
  unfold step, cursor_well_shaped. destruct ev; try discriminate; cbn [dispatch].
  - unfold on_erase_clicked.
    destruct (negb (erase_btn w)); [|destruct (negb _)]; cbn [state_of];
      rewrite ?state_of_lift; try exact Hw; apply set_tool_well_shaped; exact Hw.
  - unfold on_paint_clicked.
    destruct (negb (paint_btn w)); [|destruct (negb _)]; cbn [state_of];
      rewrite ?state_of_lift; try exact Hw; apply set_tool_well_shaped; exact Hw.
  - destruct (_ =? _); [exact Hw|].
    unfold on_brush_slider_changed. rewrite state_of_lift.
    apply set_brush_radius_well_shaped. exact Hw.
  - unfold on_open_image.
    destruct (String.eqb path ""); [exact Hw|].
    destruct (isNull pm); [exact Hw|].
    destruct (tabs_currentIndex w =? 0); [|exact Hw].
    destruct (load_interactive_image_tool pm w) as (_ & _ & _ & ->). exact I.
  - destruct (_ || _); exact Hw.
  - unfold MainWindow_resizeEvent. cbn. destruct (_ =? _); exact Hw.
  - exact Hw.
  - unfold MirrorWindow_close. destruct (MirrorWindow_closeEvent w); exact Hw.
  - unfold StaticMirrorWindow_close. destruct (StaticMirrorWindow_closeEvent w); exact Hw.
  - exact Hw.
Qed.

(** X15.  After every event sequence the cursor of the primary view is
    the arrow or a brush glyph of this shape: a square pixmap of at least
    64 pixels whose hot spot is its centre, with a circle of radius at
    least one pixel centred on the hot spot and at least five pixels away
    from every edge of the pixmap.  With no brush tool selected it is the
    arrow. *)
Theorem cursor_glyph_is_well_shaped (evs : list Event) :
  let v := view (run evs MainWindow_init) in
  (tool v = ToolNone -> cursor v = ArrowCursor)
  /\ match cursor v with
     | ArrowCursor => True
     | PixmapCursor g hotX hotY =>
         let e := glyph_ellipse g in
         64 <= glyph_size g
         /\ hotX = glyph_size g / 2 /\ hotY = glyph_size g / 2
         /\ 2 <= rect_width e /\ rect_height e = rect_width e
         /\ rect_x e + rect_width e / 2 = hotX /\ rect_y e + rect_height e / 2 = hotY
         /\ 5 <= rect_x e /\ rect_x e + rect_width e + 5 <= glyph_size g
         /\ 5 <= rect_y e /\ rect_y e + rect_height e + 5 <= glyph_size g
     end.
Proof.
  intros v. split.
  - intros Ht. destruct (run_cursor_invariant evs) as [Hg _].
    unfold glyph_matches in Hg. fold v in Hg. rewrite Ht in Hg. exact Hg.
  - apply (run_invariant cursor_well_shaped).
    + apply step_cursor_well_shaped.
    + exact I.
Qed.

(** ** Where exceptions can come from *)

Lemma returned_and_then (o : outcome MainWindow) (k : MainWindow -> outcome MainWindow) :
  returned o = true -> returned (k (state_of o)) = true -> returned (o >>> k) = true.
Proof. destruct o; [auto | discriminate]. Qed.

Lemma call_if_set_returns (cb : option Callback) (w : MainWindow) :
  is_brush (tool (view w)) = false -> returned (call_if_set cb w) = true.
Proof.
  intros Ht. destruct cb as [[| |]|]; cbn [call_if_set call]; [..|reflexivity].
  - unfold on_interaction_start. destruct (negb (interaction_timer w)); reflexivity.
  - unfold on_interaction_end. destruct (interaction_timer w); reflexivity.
  - unfold update_mirror.
    cbn [view sync_preview_transform with_preview_view with_mirror_window].
    rewrite Ht. reflexivity.
Qed.

Lemma tool_view_input (ev : Event) (w : MainWindow) :
  is_view_input ev = true -> tool (view (step w ev)) = tool (view w).
Proof.
  intros Hin.
  pose (Q := fun w' : MainWindow => tool (view w') = tool (view w)).
  change (Q (step w ev)).
  apply (preserves_view_input Q); try frame_by_projection; try assumption.
  reflexivity.
Qed.

(** Without a brush tool the handlers of the view return. *)
Lemma view_input_returns (ev : Event) (w : MainWindow) :
  is_view_input ev = true -> is_brush (tool (view w)) = false ->
  returned (dispatch ev w) = true.
Proof.
  intros Hin Ht.
  assert (Hcall : forall cb w', is_brush (tool (view w')) = false ->
                    is_brush (tool (view (state_of (call_if_set cb w')))) = false).
  { intros cb w' H. rewrite tool_call_if_set. exact H. }
  destruct ev; try discriminate; cbn [dispatch].
  - unfold wheelEvent.
    destruct (tool (view w)) eqn:Htool; try reflexivity.
    assert (Ht0 : is_brush (tool (view w)) = false) by (rewrite Htool; reflexivity).
    apply returned_and_then; [apply call_if_set_returns; exact Ht0|].
    apply call_if_set_returns. cbn [view with_view]. apply Hcall, Ht0.
  - unfold mousePressEvent. apply returned_and_then; [|reflexivity].
    destruct button; [rewrite Ht|..]; try reflexivity.
    apply call_if_set_returns, Ht.
  - unfold mouseReleaseEvent. apply returned_and_then; [|reflexivity].
    destruct button; [rewrite Ht|..]; try reflexivity.
    apply returned_and_then; [apply call_if_set_returns, Ht|].
    apply call_if_set_returns, Hcall, Ht.
  - unfold mouseMoveEvent. rewrite Ht. reflexivity.
  - destruct (interaction_timer w); [|reflexivity].
    apply (call_if_set_returns (Some cb_update_mirror)), Ht.
  - reflexivity.
Qed.

(** X16.  Exceptions come from the brush tools only.  A handler that
    raises leaves a brush tool selected: whatever fails in it (the radius
    of the cursor glyph or the side of its image, the brush position or
    an argument of the ellipse) runs only with erase or paint selected or
    being selected.  So an event after which no brush tool is selected
    was handled without an exception. *)
Theorem exceptions_need_a_brush_tool (w : MainWindow) (ev : Event) :
  returned (dispatch ev w) = false ->
  is_brush (tool (view (step w ev))) = true.
Proof.
  intros Hraise.
  destruct (is_view_input ev) eqn:Hin.
  { rewrite tool_view_input by exact Hin.
    destruct (is_brush (tool (view w))) eqn:Ht; [reflexivity|].
    rewrite view_input_returns in Hraise by assumption. discriminate. }
  unfold step. destruct ev; try discriminate; cbn [dispatch] in *.
  - unfold on_erase_clicked in *.
    destruct (negb (erase_btn w)); [|destruct (negb _)]; try discriminate.
    footprints. reflexivity.
  - unfold on_paint_clicked in *.
    destruct (negb (paint_btn w)); [|destruct (negb _)]; try discriminate.
    footprints. reflexivity.
  - destruct (_ =? _); [discriminate|].
    unfold on_brush_slider_changed in *. footprints.
    unfold set_brush_radius in Hraise.
    cbn [tool with_brush_radius view with_view with_brush_slider setCursor] in *.
    destruct (is_brush (tool (view w))); [reflexivity | discriminate].
  - unfold on_open_image in Hraise.
    destruct (String.eqb path ""); [discriminate|].
    destruct (isNull pm); [discriminate|].
    destruct (tabs_currentIndex w =? 0); [|discriminate].
    rewrite load_interactive_image_returns in Hraise. discriminate.
  - destruct (_ || _); discriminate.
Qed.

(** X17.  A stroke that fails.  With a brush tool selected and an
    overlay in place, when the view position does not map to a pixel
    position the brush raises.  On a left-button press the handler has by
    then started the refresh timer, and it skips the mirror refresh and
    the base class: the press raises, the timer is left active, and the
    view, the scene items and the mirror are as they were.  On a drag the
    handler raises with the whole state as it was. *)
Theorem failed_stroke_leaves_timer_running
  (w : MainWindow) (pos : QPoint) (img : QImage) (item : ItemRef) (e : Py.exn) :
  callbacks_wired w ->
  is_brush (tool (view w)) = true ->
  overlay_image (view w) = Some img ->
  overlay_item (view w) = Some item ->
  isNull img = false ->
  brush_point (view w) pos = inl e ->
  (let w' := step w (MousePress LeftButton pos) in
   (exists w1, dispatch (MousePress LeftButton pos) w = Raised e w1)
   /\ interaction_timer w' = true
   /\ view w' = view w /\ items w' = items w /\ mirror_window w' = mirror_window w)
  /\ dispatch (MouseMove true pos) w = Raised e w.
Proof.
  intros (Hs & _ & _) Ht Himg Hitem Hnull Hpt.
  assert (Hb : forall w1, view w1 = view w -> apply_brush pos w1 = Raised e w1).
  { intros w1 Hv. unfold apply_brush. rewrite Hv, Himg, Hitem, Hnull, Hpt. reflexivity. }
  split.
  - unfold step. cbn [dispatch]. unfold mousePressEvent. rewrite Ht, Hs.
    cbn [call_if_set call]. unfold on_interaction_start.
    destruct (interaction_timer w) eqn:Htimer; cbn [negb and_then].
    + rewrite (Hb w eq_refl). cbn [and_then state_of]. eauto 6.
    + rewrite (Hb (with_interaction_timer true w) eq_refl). cbn [and_then state_of].
      split; [eauto|]. repeat split.
  - cbn [dispatch]. unfold mouseMoveEvent. rewrite Ht. cbn [andb].
    rewrite (Hb w eq_refl). reflexivity.
Qed.

Lemma step_without_tool (w : MainWindow) (ev : Event) :
  no_tool_click ev = true -> tool (view w) = ToolNone ->
  returned (dispatch ev w) = true /\ tool (view (step w ev)) = ToolNone.
Proof.
  intros Hev Ht.
  assert (Hb : is_brush (tool (view w)) = false) by (rewrite Ht; reflexivity).
  destruct (is_view_input ev) eqn:Hin.
  { split; [apply view_input_returns; assumption|].
    rewrite tool_view_input by exact Hin. exact Ht. }
  unfold step. destruct ev; try discriminate; cbn [dispatch].
  - destruct (_ =? _); [split; [reflexivity | exact Ht]|].
    unfold on_brush_slider_changed, set_brush_radius.
    cbn [tool with_brush_radius view with_brush_slider]. rewrite Hb.
    split; [reflexivity | exact Ht].
  - unfold on_open_image.
    destruct (String.eqb path ""); [split; [reflexivity | exact Ht]|].
    destruct (isNull pm); [split; [reflexivity | exact Ht]|].
    destruct (tabs_currentIndex w =? 0); [|split; [reflexivity | exact Ht]].
    destruct (load_interactive_image_tool pm w) as (_ & _ & Htool & _).
    split; [|exact Htool].
    rewrite load_interactive_image_returns. reflexivity.
  - destruct (_ || _); split; first [reflexivity | exact Ht].
  - split; [reflexivity|].
    cbn [state_of]. unfold MainWindow_resizeEvent. cbn. destruct (_ =? _); exact Ht.
  - split; [reflexivity | exact Ht].
  - split; [reflexivity|]. cbn [state_of].
    unfold MirrorWindow_close. destruct (MirrorWindow_closeEvent w); exact Ht.
  - split; [reflexivity|]. cbn [state_of].
    unfold StaticMirrorWindow_close. destruct (StaticMirrorWindow_closeEvent w); exact Ht.
  - split; [reflexivity | exact Ht].
Qed.

(** X18.  A session in which neither tool button is clicked never
    raises: from the start, over every event sequence without a click on
    Erase or Paint (loads, zooms, presses, drags, releases, slider moves,
    resizes, close requests), every handler returns and the tool is none
    at the end. *)
Theorem session_without_tools_never_raises (evs : list Event) :
  forallb no_tool_click evs = true ->
  all_returned evs MainWindow_init = true
  /\ tool (view (run evs MainWindow_init)) = ToolNone.
Proof.
  assert (H : forall w, tool (view w) = ToolNone -> forallb no_tool_click evs = true ->
                all_returned evs w = true /\ tool (view (run evs w)) = ToolNone).
  { induction evs as [|ev evs IH]; intros w Ht Hevs.
    - split; [reflexivity | exact Ht].
    - cbn [forallb] in Hevs. apply andb_true_iff in Hevs. destruct Hevs as [Hev Hevs].
      destruct (step_without_tool w ev Hev Ht) as [Hr Ht'].
      destruct (IH (step w ev) Ht' Hevs) as [Hall Hend].
      cbn [all_returned]. rewrite Hr, Hall, run_cons. split; [reflexivity | exact Hend]. }
  intros Hevs. apply H; [reflexivity | exact Hevs].
Qed.

End Properties.

(** * Concrete runs

    The program on the small toolkit. *)

Lemma erase_then_paint_restores_opacity_witness :
  exists (w2 : @MainWindow plain_toolkit) (img2 : QImage),
    apply_brush centre (step erased PaintClicked) = Returned w2
    /\ overlay_image (view w2) = Some img2
    /\ width img2 = 8 /\ height img2 = 6
    /\ well_formed img2
    /\ qAlpha opaque_black = 255
    /\ (isNull (fill opaque_black (QImage_new 8 6)) = false ->
        item_pixmap OverlayItem (items w2) = img2)
    /\ (forall px py, 0 <= px < 8 -> 0 <= py < 6 ->
         exists x y,
           brush_point (view ready_to_erase) centre = inr (x, y)
           /\ pixel img2 px py
              = if ellipse_fill (brush_rect x y (brush_radius (view ready_to_erase))) px py
                then Some opaque_black
                else pixel (fill opaque_black (QImage_new 8 6)) px py).
Proof.
  apply (erase_then_paint_restores_opacity ready_to_erase erased (step erased PaintClicked)
           centre (fill opaque_black (QImage_new 8 6)) OverlayItem).
  - vm_compute. reflexivity.
  - vm_compute. reflexivity.
  - vm_compute. reflexivity.
  - vm_compute. reflexivity.
  - apply returned_state_of. vm_compute. reflexivity.
  - vm_compute. reflexivity.
  - vm_compute. repeat split.
Defined.

Lemma interactive_load_resets_overlay_witness :
  exists (w' : @MainWindow plain_toolkit) (img : QImage),
    on_open_image "map.png" sample_pixmap MainWindow_init = Returned w'
    /\ item_pixmap PixmapItem (items w') = sample_pixmap
    /\ overlay_image (view w') = Some img
    /\ item_pixmap OverlayItem (items w') = img
    /\ width img = width sample_pixmap
    /\ height img = height sample_pixmap
    /\ length (pixels img) = Z.to_nat (width sample_pixmap * height sample_pixmap)
    /\ (forall x y, 0 <= x < width sample_pixmap -> 0 <= y < height sample_pixmap ->
                    pixel img x y = Some opaque_black)
    /\ qAlpha opaque_black = 255
    /\ tool (view w') = ToolNone
    /\ erase_btn w' = false /\ paint_btn w' = false.
Proof.
  apply (interactive_load_resets_overlay MainWindow_init "map.png" sample_pixmap).
  - vm_compute. reflexivity.
  - vm_compute. reflexivity.
  - vm_compute. reflexivity.
Defined.

Lemma open_image_aborts_silently_witness :
  (on_open_image "" sample_pixmap erased = Returned erased
   /\ step erased (OpenImage "" sample_pixmap) = erased)
  /\ (on_open_image "broken.png" null_image erased = Returned erased
      /\ step erased (OpenImage "broken.png" null_image) = erased).
Proof.
  split.
  - apply (open_image_aborts_silently erased "" sample_pixmap). left. vm_compute. reflexivity.
  - apply (open_image_aborts_silently erased "broken.png" null_image). right.
    vm_compute. reflexivity.
Defined.

Lemma brush_before_load_is_noop_witness :
  let w : @MainWindow plain_toolkit := run before_any_load MainWindow_init in
  overlay_image (view w) = None
  /\ apply_brush centre w = Returned w
  /\ (forall w0 : MainWindow,
        overlay_image (view w0) = None \/ overlay_item (view w0) = None ->
        apply_brush centre w0 = Returned w0).
Proof.
  apply (brush_before_load_is_noop before_any_load centre).
  vm_compute. reflexivity.
Defined.

(** C7 as stated fails: the erase tool is selected, an image is opened in
    the interactive tab, and the tool is none afterwards. *)
Lemma tool_mode_lost_on_interactive_load :
  tool (view erasing) = Erase
  /\ tool (view (step erasing (OpenImage "map.png" sample_pixmap))) = ToolNone
  /\ tool (view (step erasing (OpenImage "map.png" sample_pixmap))) <> tool (view erasing).
Proof. vm_compute. repeat split. discriminate. Qed.

(** C6 as stated fails: with the erase tool active, brush radius 20 and a
    zoom of one notch out, radius times zoom lies strictly between 16 and
    17, and the glyph's on-screen radius is 16, which no product of the
    two is. *)
Lemma cursor_radius_is_not_the_product :
  let v := view zoomed_out_erasing in
  tool v = Erase
  /\ brush_radius v = 20
  /\ cursor_radius (cursor v) = Some 16
  /\ (float_of_Z 16 <? radius_times_zoom v)%float = true
  /\ (radius_times_zoom v <? float_of_Z 17)%float = true
  /\ ~ (exists n, cursor_radius (cursor v) = Some n /\ float_of_Z n = radius_times_zoom v).
Proof.
  cbv zeta.
  split; [vm_compute; reflexivity|].
  split; [vm_compute; reflexivity|].
  split; [vm_compute; reflexivity|].
  split; [vm_compute; reflexivity|].
  split; [vm_compute; reflexivity|].
  intros (n & Hn & Hf).
  assert (Hr : cursor_radius (cursor (view zoomed_out_erasing)) = Some 16)
    by (vm_compute; reflexivity).
  rewrite Hr in Hn. injection Hn as <-.
  apply (f_equal (fun f => (float_of_Z 16 <? f)%float)) in Hf.
  vm_compute in Hf. discriminate.
Qed.

Lemma wheel_ignored_with_brush_witness : wheelEvent origin 120 erasing = Returned erasing.
Proof. apply wheel_ignored_with_brush. vm_compute. reflexivity. Defined.

Lemma timer_tracks_interaction_witness :
  interaction_timer (run (tk := plain_toolkit) erase_session MainWindow_init)
  = interaction_open erase_session.
Proof.
  apply timer_tracks_interaction.
  - vm_compute. reflexivity.
  - vm_compute. reflexivity.
Defined.

Lemma wheel_scales_then_translates_witness :
  let w : @MainWindow plain_toolkit := MainWindow_init in
  let v := view w in
  let zoom_factor := (1 / 1.2)%float in
  let old_pos := mapToScene (transform v) (scroll v) centre in
  let v1 := view_scale zoom_factor zoom_factor v in
  let new_pos := mapToScene (transform v1) (scroll v1) centre in
  returned (wheelEvent centre (-120) w) = true
  /\ transform (view (state_of (wheelEvent centre (-120) w)))
     = translate (ptf_x new_pos - ptf_x old_pos)%float (ptf_y new_pos - ptf_y old_pos)%float
         (scale zoom_factor zoom_factor (transform v)).
Proof.
  apply (wheel_scales_then_translates MainWindow_init centre (-120)).
  - vm_compute. reflexivity.
  - vm_compute. repeat split.
Defined.

Lemma overlay_changes_only_by_stroke_or_load_witness :
  overlay_image (view (step erased (MouseRelease LeftButton centre)))
  = overlay_image (view erased)
  /\ overlay_item (view (step erased (MouseRelease LeftButton centre)))
     = overlay_item (view erased)
  /\ items (step erased (MouseRelease LeftButton centre)) = items erased.
Proof.
  apply (overlay_changes_only_by_stroke_or_load erased (MouseRelease LeftButton centre)).
  vm_compute. reflexivity.
Defined.

Lemma matrix_changes_only_by_wheel_or_load_witness :
  transform (view (step erased (MouseMove true origin))) = transform (view erased).
Proof.
  apply (matrix_changes_only_by_wheel_or_load erased (MouseMove true origin)).
  vm_compute. reflexivity.
Defined.

Lemma stroke_covers_brush_ellipse_witness :
  match brush_point (view ready_to_erase) centre with
  | inl e => apply_brush centre ready_to_erase = Raised e ready_to_erase
  | inr (x, y) =>
      if brush_args_fit x y (brush_radius (view ready_to_erase)) then
        exists (w' : @MainWindow plain_toolkit) (img' : QImage),
          apply_brush centre ready_to_erase = Returned w'
          /\ overlay_image (view w') = Some img'
          /\ item_pixmap OverlayItem (items w') = img'
          /\ width img' = width (fill opaque_black (QImage_new 8 6))
          /\ height img' = height (fill opaque_black (QImage_new 8 6))
          /\ well_formed img'
          /\ (forall px py,
                0 <= px < width (fill opaque_black (QImage_new 8 6)) ->
                0 <= py < height (fill opaque_black (QImage_new 8 6)) ->
                pixel img' px py
                = if ellipse_fill (brush_rect x y (brush_radius (view ready_to_erase))) px py
                  then Some (stroke_colour (tool (view ready_to_erase)))
                  else pixel (fill opaque_black (QImage_new 8 6)) px py)
          /\ qAlpha Qt_transparent = 0 /\ qAlpha opaque_black = 255
      else apply_brush centre ready_to_erase = Raised Py.OverflowError ready_to_erase
  end.
Proof.
  apply (stroke_covers_brush_ellipse ready_to_erase centre
           (fill opaque_black (QImage_new 8 6)) OverlayItem).
  - vm_compute. reflexivity.
  - vm_compute. reflexivity.
  - vm_compute. reflexivity.
  - vm_compute. reflexivity.
  - vm_compute. reflexivity.
Defined.

Lemma stroke_is_idempotent_witness :
  apply_brush centre (state_of (apply_brush centre ready_to_erase))
  = apply_brush centre ready_to_erase.
Proof. apply (stroke_is_idempotent ready_to_erase centre). vm_compute. reflexivity. Defined.

Lemma open_image_routes_by_tab_witness :
  let w := static_tab in
  let w' := step w (OpenImage "map.png" sample_pixmap) in
  returned (dispatch (OpenImage "map.png" sample_pixmap) w) = true
  /\ if tabs_currentIndex w =? 0
     then item_pixmap PixmapItem (items w') = sample_pixmap
          /\ static_label w' = static_label w
          /\ static_mirror_window w' = static_mirror_window w
     else label_pixmap (static_label w') = scaled sample_pixmap (label_size (static_label w))
          /\ label_text (static_label w') = ""%string
          /\ smw_original_pixmap (static_mirror_window w') = Some sample_pixmap
          /\ label_pixmap (smw_label (static_mirror_window w'))
             = scaled sample_pixmap (label_size (smw_label (static_mirror_window w)))
          /\ view w' = view w
          /\ items w' = items w
          /\ preview_view w' = preview_view w
          /\ mirror_window w' = mirror_window w.
Proof.
  apply (open_image_routes_by_tab static_tab "map.png" sample_pixmap).
  - vm_compute. reflexivity.
  - vm_compute. reflexivity.
Defined.

(** After the zoom has overflowed, selecting the erase tool raises in the
    cursor update, with the erase tool selected. *)
Lemma exceptions_need_a_brush_tool_witness :
  is_brush (tool (view (step zoomed_to_overflow EraseClicked))) = true.
Proof.
  apply (exceptions_need_a_brush_tool zoomed_to_overflow EraseClicked).
  vm_compute. reflexivity.
Defined.

(** With the view zoomed far out, a press with the erase tool raises and
    leaves the timer running. *)
Lemma failed_stroke_leaves_timer_running_witness :
  (let w' := step zoomed_far_out (MousePress LeftButton centre) in
   (exists w1, dispatch (MousePress LeftButton centre) zoomed_far_out
               = Raised Py.OverflowError w1)
   /\ interaction_timer w' = true
   /\ view w' = view zoomed_far_out /\ items w' = items zoomed_far_out
   /\ mirror_window w' = mirror_window zoomed_far_out)
  /\ dispatch (MouseMove true centre) zoomed_far_out = Raised Py.OverflowError zoomed_far_out.
Proof.
  apply (failed_stroke_leaves_timer_running zoomed_far_out centre
           (fill opaque_black (QImage_new 8 6)) OverlayItem Py.OverflowError).
  - vm_compute. repeat split.
  - vm_compute. reflexivity.
  - vm_compute. reflexivity.
  - vm_compute. reflexivity.
  - vm_compute. reflexivity.
  - vm_compute. reflexivity.
Defined.

Lemma session_without_tools_never_raises_witness :
  all_returned (tk := plain_toolkit) pan_session MainWindow_init = true
  /\ tool (view (run (tk := plain_toolkit) pan_session MainWindow_init)) = ToolNone.
Proof. apply (session_without_tools_never_raises pan_session). vm_compute. reflexivity. Defined.

(** Splits a conjunction of closed facts and evaluates each. *)
Ltac by_evaluation :=
  repeat match goal with |- _ /\ _ => split end; vm_compute; reflexivity.

(** C5 at a failing input.  The sample image is loaded into the
    interactive tab, no tool is selected, and the wheel is turned one
    notch in with the pointer at view position (100, 100), on a view that
    keeps its centre as Qt's does by default.  The handler returns and
    the matrix is scaled by 1.2 and translated, but the view centres
    itself again after the scaling and after the translation: the scene
    point at the middle of the viewport is the same as before, and the
    scene point under the pointer, (1, 1) before the event, is more than
    0.3 scene pixels away from it in both directions afterwards (at the
    new zoom of 120, more than 36 pixels on screen).  On a view without
    an anchor the same event leaves that point where it was. *)
Theorem wheel_zoom_keeps_the_view_centre :
  let w := loaded_centred in
  let w' := step (tk := centring_toolkit) w (Wheel off_centre 120) in
  let before := scene_under (tk := centring_toolkit) w off_centre in
  let after := scene_under (tk := centring_toolkit) w' off_centre in
  tool (view w) = ToolNone
  /\ returned (dispatch (tk := centring_toolkit) (Wheel off_centre 120) w) = true
  /\ m11 (transform (view w')) = (m11 (transform (view w)) * 1.2)%float
  /\ m22 (transform (view w')) = (m22 (transform (view w)) * 1.2)%float
  /\ before = {| ptf_x := 1; ptf_y := 1 |}
  /\ (0.3 <? ptf_x after - ptf_x before)%float = true
  /\ (0.3 <? ptf_y after - ptf_y before)%float = true
  /\ scene_under (tk := centring_toolkit) w' centre
     = scene_under (tk := centring_toolkit) w centre
  /\ scene_under (step loaded (Wheel off_centre 120)) off_centre
     = scene_under loaded off_centre.
Proof. cbv zeta. by_evaluation. Qed.

(** The cursor update at large zooms.  After ninety notches of zoom in,
    selecting the erase tool asks for a glyph of radius 267511304; its
    image gets no buffer and the cursor is the arrow.  After a hundred
    and twenty notches the side of the image does not fit a C int: the
    click raises [OverflowError], with the erase tool selected and the
    cursor as it was. *)
Example cursor_update_at_large_zoom :
  (screen_radius 20 (transform (view zoomed_in_90)) = inr 267511304
   /\ returned (dispatch EraseClicked zoomed_in_90) = true
   /\ tool (view (step zoomed_in_90 EraseClicked)) = Erase
   /\ cursor (view (step zoomed_in_90 EraseClicked)) = ArrowCursor)
  /\ (screen_radius 20 (transform (view zoomed_in_120)) = inr 63500847475
      /\ raises Py.OverflowError (dispatch EraseClicked zoomed_in_120) = true
      /\ tool (view (step zoomed_in_120 EraseClicked)) = Erase
      /\ cursor (view (step zoomed_in_120 EraseClicked)) = ArrowCursor).
Proof. by_evaluation. Qed.

(** A stroke far outside the C ints.  With the view zoomed out by a
    hundred and twenty notches the middle of the viewport maps to a
    finite pixel position beyond the range of a C int: a press and a drag
    with the erase tool raise [OverflowError] in [drawEllipse], and the
    overlay is what it was. *)
Example stroke_beyond_c_int :
  brush_point (view zoomed_out_120_erasing) centre = inr (12700169495, 9525127121)
  /\ raises Py.OverflowError (dispatch (MousePress LeftButton centre) zoomed_out_120_erasing)
     = true
  /\ raises Py.OverflowError (dispatch (MouseMove true centre) zoomed_out_120_erasing) = true
  /\ overlay_image (view (step zoomed_out_120_erasing (MousePress LeftButton centre)))
     = overlay_image (view zoomed_out_120_erasing).
Proof. by_evaluation. Qed.
